(** * orchestra-mcp/cli: the serve supervisor, the plugin registry and the
      command dispatcher

    A shallow embedding of [main.go] and of [internal/serve.go],
    [internal/registry.go] and [internal/plugins.go] (the three Go files
    concatenated in [src/internal/plugins.go]).

    Go strings are byte strings: they are [string] here.  Everything the
    program obtains from the operating system or from a library of the Go
    distribution (flag parsing, path arithmetic, the YAML and JSON codecs,
    the behaviour of child processes) is a field of the environment record
    [Env]; the file system, the error stream and the actions performed on
    other processes are the explicit state [State] threaded through the
    code. *)

From Stdlib Require Import String Ascii List ZArith Lia.
From stdpp Require Import gmap strings list fin_maps pretty.

Open Scope string_scope.
Open Scope list_scope.

(** ** Byte strings: the parts of [strings] and [regexp] the program uses *)

Module GoStrings.

Definition nl : string := String "010"%char "".

(** [strings.HasPrefix] and the remainder after the prefix. *)
Fixpoint stripPrefix (p s : string) : option string :=
  match p with
  | "" => Some s
  | String a p' =>
      match s with
      | "" => None
      | String b s' => if Ascii.eqb a b then stripPrefix p' s' else None
      end
  end.

Definition HasPrefix (s p : string) : bool :=
  match stripPrefix p s with Some _ => true | None => false end.

(** [s[1:]] *)
Definition tail1 (s : string) : string :=
  match s with "" => "" | String _ r => r end.

(** [strings.Count(s, substr)] for a non-empty [substr]: the number of
    non-overlapping instances, scanning from the left.  [skip] is the
    number of bytes of the instance found last that are still to be
    stepped over. *)
Fixpoint countFrom (substr : string) (skip : nat) (s : string) : nat :=
  match s with
  | "" => 0
  | String _ r =>
      match skip with
      | S k => countFrom substr k r
      | O =>
          if HasPrefix s substr
          then S (countFrom substr (String.length substr - 1) r)
          else countFrom substr 0 r
      end
  end.

Definition Count (s substr : string) : nat := countFrom substr 0 s.

(** The Perl class [\s] of Go's regexp syntax: [[\t\n\f\r ]]. *)
Definition isSpace (c : ascii) : bool :=
  match nat_of_ascii c with
  | 9 | 10 | 12 | 13 | 32 => true
  | _ => false
  end.

(** The longest prefix matching [\S*]. *)
Fixpoint takeNonSpace (s : string) : string :=
  match s with
  | "" => ""
  | String c r => if isSpace c then "" else String c (takeNonSpace r)
  end.

Definition listening : string := "listening on ".

(** [regexp.MustCompile(`listening on (\S+)`).FindStringSubmatch(s)]:
    the leftmost match, its group taken greedily; the result is the
    whole match followed by the group, or the empty (nil) slice. *)
Fixpoint addrRe_FindStringSubmatch (s : string) : list string :=
  match s with
  | "" => []
  | String _ r =>
      match stripPrefix listening s with
      | Some rest =>
          match takeNonSpace rest with
          | "" => addrRe_FindStringSubmatch r
          | a => [listening +:+ a; a]
          end
      | None => addrRe_FindStringSubmatch r
      end
  end.

(** [%q] of [fmt] on a string without characters to escape. *)
Definition dquote : string := String (ascii_of_nat 34) EmptyString.

Definition quote (s : string) : string := dquote +:+ s +:+ dquote.

End GoStrings.
Import GoStrings.

(** ** Data model *)

(** [PluginEntry] (registry.go): one installed plugin. *)
Record PluginEntry := {
  ID : string;
  Version : string;
  Binary : string;
  Repo : string;
  InstalledAt : string;
  ProvidesTools : list string;
  ProvidesStorage : list string;
  NeedsStorage : list string;
}.

(** [PluginRegistry.Plugins], keyed by repo URL.  The map holds the entries
    the pointers of the Go map point to. *)
Abbreviation registry := (gmap string PluginEntry).

(** [pluginConfig] and [orchestratorConfig] (serve.go): the document
    written for the orchestrator. *)
Record pluginConfig := {
  pcID : string;
  pcBinary : string;
  pcEnabled : bool;
  pcProvidesStorage : list string;
  pcArgs : list string;
}.

Record orchestratorConfig := {
  ListenAddr : string;
  CertsDir : string;
  Plugins : list pluginConfig;
}.

(** The flags of [serve]. *)
Record serveFlags := {
  workspace : string;
  certsDir : string;
  logPath : string;
}.

(** Errors, as far as the program tells them apart ([os.IsNotExist]). *)
Inductive error :=
| ErrNotExist (path : string)
| ErrOther (msg : string).

Definition IsNotExist (e : option error) : bool :=
  match e with Some (ErrNotExist _) => true | _ => false end.

(** [%v] of an error. *)
Definition errText (e : error) : string :=
  match e with
  | ErrNotExist p => p +:+ ": no such file or directory"
  | ErrOther m => m
  end.

(** A path of the file system names a regular file or something that
    cannot be read as one. *)
Inductive node :=
| File (data : string)
| Dir.

(** [exec.Cmd]: [Process] is set by [Start], [ProcessState] by [Wait]. *)
Record Cmd := {
  Path : string;
  Args : list string;
  Process : option nat;
  ProcessState : option Z;
}.

Definition exec_Command (path : string) (args : list string) : Cmd :=
  {| Path := path; Args := args; Process := None; ProcessState := None |}.

(** What the supervisor does to other processes and to the clock, in the
    order it does it. *)
Inductive event :=
| Pkill (args : list string)
| Sleep (ms : Z)
| Started (path : string) (args : list string) (pid : nat)
| Signalled (pid : nat)
| Killed (pid : nat)
| Closed.

(** The calls a [defer] statement can register in [RunServe]. *)
Inductive deferCall :=
| DeferCleanup (tmpConfig : string)
| DeferClose
| DeferRemove (path : string).

(** The state the code works on: the file system, the lines written to the
    error stream, the events so far, the number of times the shared log has
    been read, the variable [orchCmd] the cleanup closure captures, and the
    deferred calls of the running [RunServe], last registered first. *)
Record State := {
  files : gmap string node;
  stderr : list string;
  trace : list event;
  logReads : nat;
  orchCmd : option Cmd;
  defers : list deferCall;
}.

Definition setFiles (f : gmap string node) (s : State) : State :=
  {| files := f; stderr := stderr s; trace := trace s;
     logReads := logReads s; orchCmd := orchCmd s; defers := defers s |}.

Definition addStderr (line : string) (s : State) : State :=
  {| files := files s; stderr := stderr s ++ [line]; trace := trace s;
     logReads := logReads s; orchCmd := orchCmd s; defers := defers s |}.

Definition addEvent (e : event) (s : State) : State :=
  {| files := files s; stderr := stderr s; trace := trace s ++ [e];
     logReads := logReads s; orchCmd := orchCmd s; defers := defers s |}.

Definition tickLog (s : State) : State :=
  {| files := files s; stderr := stderr s; trace := trace s;
     logReads := S (logReads s); orchCmd := orchCmd s; defers := defers s |}.

Definition setOrchCmd (c : option Cmd) (s : State) : State :=
  {| files := files s; stderr := stderr s; trace := trace s;
     logReads := logReads s; orchCmd := c; defers := defers s |}.

Definition setDefers (d : list deferCall) (s : State) : State :=
  {| files := files s; stderr := stderr s; trace := trace s;
     logReads := logReads s; orchCmd := orchCmd s; defers := d |}.

(** A statement sequence either completes with a value or ends the process
    through [os.Exit], which runs no deferred call. *)
Inductive Result (A : Type) : Type :=
| Return (a : A) (s : State)
| Exited (code : Z) (s : State).
Arguments Return {A} a s.
Arguments Exited {A} code s.

Definition M (A : Type) : Type := State -> Result A.

Definition ret {A} (a : A) : M A := fun s => Return a s.

Definition bind {A B} (m : M A) (k : A -> M B) : M B :=
  fun s => match m s with
           | Return a s' => k a s'
           | Exited c s' => Exited c s'
           end.

#[global] Instance M_ret : MRet M := @ret.
#[global] Instance M_bind : MBind M := fun A B k m => bind m k.

Fixpoint forM_ {A} (l : list A) (body : A -> M unit) : M unit :=
  match l with
  | [] => ret tt
  | x :: r => body x ;; forM_ r body
  end.

(** What [Cmd.Run] reports. *)
Inductive runError :=
| ExitError (code : Z)
| StartError (e : error).

(** What the install pipeline hands to the registration step. *)
Record acquired := {
  aRepo : string;
  aVersion : string;
  aBinPath : string;
  aID : string;
  aProvidesTools : list string;
  aProvidesStorage : list string;
  aNeedsStorage : list string;
}.

(** ** The environment *)

(** Everything the code obtains from outside itself.
    - [flag_Parse defaults args]: the [flag] package with [ExitOnError];
      [inl code] when it ends the process.
    - [logAt k]: the contents of the shared log at its k-th read (the hub
      and the plugins write to it concurrently).
    - [startProcess path args]: what [Cmd.Start] does.
    - [exitStatus pid]: what [ExitCode] reports once the process has
      ended; a process that is waited for is assumed to end.
    - [exitedBy pid k]: whether the process has ended when the log is read
      for the k-th time.  Only [Wait] tells a program so.
    - [rangeRegistry m]: the order in which [range] visits a map, which Go
      leaves open; [range_perm] says it visits every entry once.
    - [acquire], [selfUpdate]: the download and build pipelines of
      install.go and update.go up to the point where the registry is
      loaded. *)
Record Env := {
  flag_Parse : serveFlags -> list string -> Z + serveFlags;
  filepath_Abs : string -> error + string;
  filepath_Join : list string -> string;
  filepath_Dir : string -> string;
  filepath_EvalSymlinks : string -> string;
  os_UserHomeDir : string;
  os_Executable : error + string;
  os_CreateTemp : gmap string node -> error + string;
  canWrite : string -> bool;
  yaml_Marshal : orchestratorConfig -> string;
  json_Unmarshal : string -> error + option registry;
  json_MarshalIndent : registry -> error + string;
  logAt : nat -> string;
  startProcess : string -> list string -> error + nat;
  exitStatus : nat -> Z;
  exitedBy : nat -> nat -> bool;
  rangeRegistry : registry -> list (string * PluginEntry);
  range_perm : forall m, rangeRegistry m ≡ₚ map_to_list m;
  timeNow : string;
  acquire : list string -> M acquired;
  selfUpdate : M unit;
}.

(** ** The primitives of [os], [time] and [os/exec] *)

Section Program.

Variable E : Env.

Definition os_Exit {A} (code : Z) : M A := fun s => Exited code s.

Definition Fprintf_stderr (line : string) : M unit :=
  fun s => Return tt (addStderr line s).

(** [fatal] (serve.go): one line on the error stream, then [os.Exit(1)]. *)
Definition fatalLine (msg : string) : string := "orchestra: " +:+ msg +:+ nl.

Definition fatal {A} (msg : string) : M A :=
  Fprintf_stderr (fatalLine msg);; os_Exit 1.

Definition os_Stat (p : string) : M (option error) :=
  fun s => match files s !! p with
           | Some _ => Return None s
           | None => Return (Some (ErrNotExist p)) s
           end.

Definition os_ReadFile (p : string) : M (error + string) :=
  fun s => match files s !! p with
           | Some (File d) => Return (inr d) s
           | Some Dir => Return (inl (ErrOther (p +:+ ": is a directory"))) s
           | None => Return (inl (ErrNotExist p)) s
           end.

Definition os_WriteFile (p data : string) : M (option error) :=
  fun s => match files s !! p with
           | Some Dir => Return (Some (ErrOther (p +:+ ": is a directory"))) s
           | _ =>
               if canWrite E p
               then Return None (setFiles (<[p := File data]> (files s)) s)
               else Return (Some (ErrOther (p +:+ ": permission denied"))) s
           end.

(** [os.OpenFile(p, O_CREATE|O_WRONLY|O_APPEND, 0644)] *)
Definition os_OpenFile_append (p : string) : M (option error) :=
  fun s => match files s !! p with
           | Some Dir => Return (Some (ErrOther (p +:+ ": is a directory"))) s
           | Some (File _) =>
               if canWrite E p then Return None s
               else Return (Some (ErrOther (p +:+ ": permission denied"))) s
           | None =>
               if canWrite E p
               then Return None (setFiles (<[p := File ""]> (files s)) s)
               else Return (Some (ErrOther (p +:+ ": permission denied"))) s
           end.

Definition os_Remove (p : string) : M (option error) :=
  fun s => match files s !! p with
           | Some (File _) => Return None (setFiles (delete p (files s)) s)
           | Some Dir => Return (Some (ErrOther (p +:+ ": directory not empty"))) s
           | None => Return (Some (ErrNotExist p)) s
           end.

Definition os_MkdirAll (p : string) : M (option error) :=
  fun s => if canWrite E p then Return None s
           else Return (Some (ErrOther (p +:+ ": permission denied"))) s.

(** [os.CreateTemp]: a new, empty file under a name of the system's
    choice. *)
Definition createTemp : M (error + string) :=
  fun s => match os_CreateTemp E (files s) with
           | inl e => Return (inl e) s
           | inr name => Return (inr name) (setFiles (<[name := File ""]> (files s)) s)
           end.

(** [tmpFile.Write(data)] on the file just created. *)
Definition tmpFile_Write (name data : string) : M unit :=
  fun s => Return tt (setFiles (<[name := File data]> (files s)) s).

Definition emit (e : event) : M unit := fun s => Return tt (addEvent e s).

(** [exec.Command("pkill", args...).Run()], its result dropped. *)
Definition pkill (args : list string) : M unit := emit (Pkill args).

Definition time_Sleep (ms : Z) : M unit := emit (Sleep ms).

(** [os.ReadFile(logFile)] with the error dropped: the log as it is at
    this read. *)
Definition readLog : M string :=
  fun s => Return (logAt E (logReads s)) (tickLog s).

Definition Cmd_Start (c : Cmd) : M (option error * Cmd) :=
  match startProcess E (Path c) (Args c) with
  | inl e => mret (Some e, c)
  | inr pid =>
      emit (Started (Path c) (Args c) pid);;
      mret (None, {| Path := Path c; Args := Args c;
                     Process := Some pid; ProcessState := ProcessState c |})
  end.

(** [Cmd.Wait] on a started command: blocks until the process has ended
    and records its state. *)
Definition Cmd_Wait (c : Cmd) : M (option runError * Cmd) :=
  match Process c with
  | None => mret (Some (StartError (ErrOther "exec: not started")), c)
  | Some pid =>
      let st := exitStatus E pid in
      mret (if (st =? 0)%Z then None else Some (ExitError st),
            {| Path := Path c; Args := Args c;
               Process := Process c; ProcessState := Some st |})
  end.

(** [Cmd.Run]: [Start], then [Wait]. *)
Definition Cmd_Run (c : Cmd) : M (option runError * Cmd) :=
  r ← Cmd_Start c;
  match r.1 with
  | Some e => mret (Some (StartError e), r.2)
  | None => Cmd_Wait r.2
  end.

Definition getOrchCmd : M (option Cmd) := fun s => Return (orchCmd s) s.

Definition assignOrchCmd (c : Cmd) : M unit :=
  fun s => Return tt (setOrchCmd (Some c) s).

Definition defer (d : deferCall) : M unit :=
  fun s => Return tt (setDefers (d :: defers s) s).

(** ** registry.go *)

Definition registryDir : string :=
  filepath_Join E [os_UserHomeDir E; ".orchestra"; "plugins"].

Definition registryPath : string :=
  filepath_Join E [registryDir; "registry.json"].

Definition pluginBinDir : string := filepath_Join E [registryDir; "bin"].

(** [LoadRegistry]: [inl err] stands for [(nil, err)], [inr reg] for
    [(&reg, nil)]. *)
Definition LoadRegistry : M (error + registry) :=
  r ← os_ReadFile registryPath;
  match r with
  | inl err =>
      if IsNotExist (Some err) then mret (inr ∅) else mret (inl err)
  | inr data =>
      match json_Unmarshal E data with
      | inl err => mret (inl err)
      | inr None => mret (inr ∅)
      | inr (Some plugins) => mret (inr plugins)
      end
  end.

Definition SaveRegistry (reg : registry) : M (option error) :=
  e ← os_MkdirAll registryDir;
  match e with
  | Some err => mret (Some err)
  | None =>
      match json_MarshalIndent E reg with
      | inl err => mret (Some err)
      | inr data => os_WriteFile registryPath data
      end
  end.

(** ** serve.go *)

Definition defaultCertsDir : string :=
  filepath_Join E [os_UserHomeDir E; ".orchestra"; "certs"].

Definition binNames : list string :=
  ["orchestrator"; "storage-markdown"; "tools-features"; "transport-stdio"].

(** The map literal [bins]; [range] visits it in the order written here,
    one of the orders Go may choose. *)
Definition makeBins (binDir : string) : list (string * string) :=
  map (fun name => (name, filepath_Join E [binDir; name])) binNames.

(** [bins[key]]: the zero value when the key is absent. *)
Fixpoint binsAt (bins : list (string * string)) (key : string) : string :=
  match bins with
  | [] => ""
  | (k, v) :: r => if String.eqb k key then v else binsAt r key
  end.

(** The paths [RunServe] works with. *)
Record paths := {
  absWorkspace : string;
  absCertsDir : string;
  logFile : string;
  bins : list (string * string);
}.

(** Flag parsing, path resolution and the check of the sibling binaries
    (the first part of [RunServe]). *)
Definition resolvePaths (args : list string) : M paths :=
  match flag_Parse E {| workspace := "."; certsDir := defaultCertsDir;
                        logPath := "" |} args with
  | inl code => os_Exit code
  | inr fl =>
      match filepath_Abs E (workspace fl) with
      | inl err => fatal ("resolve workspace: " +:+ errText err)
      | inr absWs =>
          let certs :=
            if HasPrefix (certsDir fl) "~"
            then filepath_Join E [os_UserHomeDir E; tail1 (certsDir fl)]
            else certsDir fl in
          let log :=
            if String.eqb (logPath fl) ""
            then filepath_Join E [absWs; ".orchestra-mcp.log"]
            else logPath fl in
          match os_Executable E with
          | inl err => fatal ("resolve self path: " +:+ errText err)
          | inr selfPath =>
              let binDir := filepath_Dir E (filepath_EvalSymlinks E selfPath) in
              let bs := makeBins binDir in
              forM_ bs (fun '(name, path) =>
                err ← os_Stat path;
                if IsNotExist err
                then fatal ("missing binary " +:+ quote name +:+ " at " +:+ path)
                else mret tt);;
              mret {| absWorkspace := absWs; absCertsDir := certs;
                      logFile := log; bins := bs |}
          end
      end
  end.

(** "Kill stale processes." *)
Definition killStale (bs : list (string * string)) : M unit :=
  forM_ bs (fun '(_, bin) => pkill ["-9"; "-f"; bin]);;
  time_Sleep 500.

Definition workspaceArg (absWs : string) : string := "--workspace=" +:+ absWs.

(** The two plugins of the composite literal [cfg]. *)
Definition builtinPlugins (p : paths) : list pluginConfig :=
  [ {| pcID := "storage.markdown";
       pcBinary := binsAt (bins p) "storage-markdown";
       pcEnabled := true;
       pcProvidesStorage := ["markdown"];
       pcArgs := [workspaceArg (absWorkspace p)] |};
    {| pcID := "tools.features";
       pcBinary := binsAt (bins p) "tools-features";
       pcEnabled := true;
       pcProvidesStorage := [];
       pcArgs := [] |} ].

(** The loop over [registry.Plugins]. *)
Fixpoint appendPlugins (absWs : string) (entries : list (string * PluginEntry))
    (acc : list pluginConfig) : M (list pluginConfig) :=
  match entries with
  | [] => mret acc
  | (_, p) :: rest =>
      err ← os_Stat (Binary p);
      match err with
      | Some _ => appendPlugins absWs rest acc
      | None =>
          appendPlugins absWs rest
            (acc ++ [ {| pcID := ID p;
                         pcBinary := Binary p;
                         pcEnabled := true;
                         pcProvidesStorage := ProvidesStorage p;
                         pcArgs := [workspaceArg absWs] |} ])
      end
  end.

(** "Write temp config", first half: the descriptors for the
    orchestrator. *)
Definition buildConfig (p : paths) : M orchestratorConfig :=
  r ← LoadRegistry;
  plugins ← match r with
            | inr reg =>
                appendPlugins (absWorkspace p) (rangeRegistry E reg)
                  (builtinPlugins p)
            | inl _ => mret (builtinPlugins p)
            end;
  mret {| ListenAddr := "localhost:0"; CertsDir := absCertsDir p;
          Plugins := plugins |}.

(** Second half: the temporary file, and the log truncated.  The result
    is [tmpConfig]. *)
Definition writeConfig (p : paths) (cfg : orchestratorConfig) : M string :=
  r ← createTemp;
  match r with
  | inl err => fatal ("create temp config: " +:+ errText err)
  | inr tmpConfig =>
      tmpFile_Write tmpConfig (yaml_Marshal E cfg);;
      os_WriteFile (logFile p) "";;
      mret tmpConfig
  end.

(** The closure [cleanup]: it reads [orchCmd] when it runs. *)
Definition cleanup (tmpConfig : string) : M unit :=
  c ← getOrchCmd;
  match c ≫= Process with
  | Some pid =>
      pkill ["-P"; pretty pid];;
      emit (Signalled pid);;
      time_Sleep 300;;
      pkill ["-9"; "-P"; pretty pid];;
      emit (Killed pid)
  | None => mret tt
  end;;
  os_Remove tmpConfig;;
  mret tt.

(** The body of the goroutine that waits on [sigCh], from the moment a
    signal is received. *)
Definition onSignal (tmpConfig : string) : M unit :=
  cleanup tmpConfig;; os_Exit 0.

Definition runDeferred (d : deferCall) : M unit :=
  match d with
  | DeferCleanup tmpConfig => cleanup tmpConfig
  | DeferClose => emit Closed
  | DeferRemove path => os_Remove path;; mret tt
  end.

(** Returning from the function runs its deferred calls, last first. *)
Definition returnFrom : M unit :=
  fun s => forM_ (defers s) runDeferred (setDefers [] s).

(** A run-time panic unwinds through the deferred calls and ends the
    process with status 2. *)
Definition panic {A} (msg : string) : M A :=
  returnFrom;; Fprintf_stderr ("panic: " +:+ msg +:+ nl);; os_Exit 2.

(** "Setup signal handling and cleanup", "Start orchestrator" and "Write
    PID file". *)
Definition launch (p : paths) (tmpConfig : string) : M unit :=
  defer (DeferCleanup tmpConfig);;
  e ← os_OpenFile_append (logFile p);
  match e with
  | Some err => fatal ("open log: " +:+ errText err)
  | None =>
      defer DeferClose;;
      assignOrchCmd (exec_Command (binsAt (bins p) "orchestrator")
                       ["--config"; tmpConfig]);;
      r ← Cmd_Start (exec_Command (binsAt (bins p) "orchestrator")
                       ["--config"; tmpConfig]);
      assignOrchCmd r.2;;
      match r.1 with
      | Some err => fatal ("start orchestrator: " +:+ errText err)
      | None =>
          let pidFile :=
            filepath_Join E [absWorkspace p; ".orchestra-mcp.pid"] in
          match Process r.2 with
          | None => panic "nil pointer dereference"
          | Some pid =>
              os_WriteFile pidFile (pretty pid);;
              defer (DeferRemove pidFile)
          end
      end
  end.

Definition marker : string := "registered and booted".

(** "Wait for plugins to register": the [for] loop with [n] iterations
    left; the result is [ready]. *)
Fixpoint pollLoop (n : nat) (log : string) : M bool :=
  match n with
  | O => mret false
  | S n' =>
      time_Sleep 500;;
      logStr ← readLog;
      let booted := Count logStr marker in
      if (2 <=? booted)%nat then mret true
      else
        c ← getOrchCmd;
        match c with
        | None => panic "nil pointer dereference"
        | Some cmd =>
            match ProcessState cmd with
            | Some _ =>
                fatal ("orchestrator exited unexpectedly. Check " +:+ log)
            | None => pollLoop n' log
            end
        end
  end.

Definition awaitReady (p : paths) : M unit :=
  pollLoop 30 (logFile p) ≫= fun ready : bool =>
  if ready then ret tt
  else fatal ("orchestrator did not become ready in 15 seconds. Check "
              +:+ logFile p).

(** "Extract listen address" and "Run transport-stdio". *)
Definition transportArgs (p : paths) (orchAddr : string) : list string :=
  ["--orchestrator-addr=" +:+ orchAddr; "--certs-dir=" +:+ absCertsDir p].

Definition runTransport (p : paths) (orchAddr : string) : M unit :=
  r ← Cmd_Run (exec_Command (binsAt (bins p) "transport-stdio")
                 (transportArgs p orchAddr));
  match r.1 with
  | Some (ExitError code) => os_Exit code
  | _ => mret tt
  end.

Definition handOff (p : paths) : M unit :=
  logData ← readLog;
  let matches := addrRe_FindStringSubmatch logData in
  if (length matches <? 2)%nat
  then fatal ("could not determine orchestrator address. Check "
              +:+ logFile p)
  else runTransport p (nth 1 matches "").

(** [RunServe] from the readiness wait to its return. *)
Definition supervise (p : paths) : M unit :=
  awaitReady p;;
  handOff p;;
  returnFrom.

Definition RunServe (args : list string) : M unit :=
  p ← resolvePaths args;
  killStale (bins p);;
  cfg ← buildConfig p;
  tmpConfig ← writeConfig p cfg;
  launch p tmpConfig;;
  supervise p.

(** ** install.go, from "Determine display version" on *)

Definition when (b : bool) (m : M unit) : M unit := if b then m else ret tt.

Definition RunInstall (args : list string) : M unit :=
  a ← acquire E args;
  let displayVersion :=
    if String.eqb (aVersion a) "" then "latest" else aVersion a in
  r ← LoadRegistry;
  match r with
  | inl err => fatal ("load registry: " +:+ errText err)
  | inr reg =>
      let entry := {| ID := aID a; Version := displayVersion;
                      Binary := aBinPath a; Repo := aRepo a;
                      InstalledAt := timeNow E;
                      ProvidesTools := aProvidesTools a;
                      ProvidesStorage := aProvidesStorage a;
                      NeedsStorage := aNeedsStorage a |} in
      e ← SaveRegistry (<[aRepo a := entry]> reg);
      match e with
      | Some err => fatal ("save registry: " +:+ errText err)
      | None =>
          Fprintf_stderr (nl +:+ "Installed " +:+ aID a +:+ " ("
                          +:+ displayVersion +:+ ")" +:+ nl);;
          Fprintf_stderr ("  Binary: " +:+ aBinPath a +:+ nl);;
          when (0 <? length (aProvidesTools a))%nat
            (Fprintf_stderr ("  Tools:  "
               +:+ String.concat ", " (aProvidesTools a) +:+ nl));;
          when (0 <? length (aProvidesStorage a))%nat
            (Fprintf_stderr ("  Storage: "
               +:+ String.concat ", " (aProvidesStorage a) +:+ nl))
      end
  end.

(** ** plugins.go *)

(** [%-24s] and the like. *)
Definition padRight (w : nat) (s : string) : string :=
  s +:+ String.concat "" (repeat " " (w - String.length s)).

Definition capStr (p : PluginEntry) : string :=
  let caps : list string :=
    app (if (0 <? length (ProvidesTools p))%nat
         then [pretty (length (ProvidesTools p)) +:+ " tools"] else [])
        (if (0 <? length (ProvidesStorage p))%nat
         then [pretty (length (ProvidesStorage p)) +:+ " storage"] else []) in
  if (0 <? length caps)%nat
  then "  (" +:+ String.concat ", " caps +:+ ")"
  else "".

Definition RunPlugins (args : list string) : M unit :=
  r ← LoadRegistry;
  match r with
  | inl err => fatal ("load registry: " +:+ errText err)
  | inr reg =>
      if (size reg =? 0)%nat
      then Fprintf_stderr ("No plugins installed. Run: orchestra install <github-repo>" +:+ nl)
      else
        Fprintf_stderr ("Installed plugins:" +:+ nl);;
        forM_ (rangeRegistry E reg) (fun '(_, p) =>
          Fprintf_stderr ("  " +:+ padRight 24 (ID p) +:+ " "
                          +:+ padRight 10 (Version p) +:+ " "
                          +:+ Repo p +:+ capStr p +:+ nl))
  end.

(** "Find by repo URL first, then by plugin ID." *)
Definition findPlugin (reg : registry) (target : string)
    : option (string * PluginEntry) :=
  match reg !! target with
  | Some p => Some (target, p)
  | None =>
      List.find (fun kp : string * PluginEntry => String.eqb (ID kp.2) target)
        (rangeRegistry E reg)
  end.

Definition RunUninstall (args : list string) : M unit :=
  match args with
  | [] => fatal "usage: orchestra uninstall <plugin-id-or-repo>"
  | target :: _ =>
      r ← LoadRegistry;
      match r with
      | inl err => fatal ("load registry: " +:+ errText err)
      | inr reg =>
          match findPlugin reg target with
          | None => fatal ("plugin not found: " +:+ target)
          | Some (repoKey, entry) =>
              e ← os_Remove (Binary entry);
              match e with
              | Some err =>
                  when (negb (IsNotExist e))
                    (Fprintf_stderr ("  Warning: could not remove binary "
                       +:+ Binary entry +:+ ": " +:+ errText err +:+ nl))
              | None => ret tt
              end;;
              e' ← SaveRegistry (delete repoKey reg);
              match e' with
              | Some err => fatal ("save registry: " +:+ errText err)
              | None =>
                  Fprintf_stderr ("Uninstalled " +:+ ID entry +:+ " ("
                                  +:+ Repo entry +:+ ")" +:+ nl)
              end
          end
      end
  end.

Definition RunUpdate (args : list string) : M unit :=
  match args with
  | [] => selfUpdate E
  | target :: _ =>
      r ← LoadRegistry;
      match r with
      | inl err => fatal ("load registry: " +:+ errText err)
      | inr reg =>
          match findPlugin reg target with
          | None => fatal ("plugin not found: " +:+ target)
          | Some (_, entry) =>
              Fprintf_stderr ("Updating " +:+ ID entry +:+ " ("
                              +:+ Repo entry +:+ ")..." +:+ nl);;
              RunInstall [Repo entry]
          end
      end
  end.

End Program.

(** ** main.go *)

(** The function [main] calls, with its argument. *)
Inductive call :=
| CallRunServe (args : list string)
| CallRunInit (args : list string)
| CallRunInstall (args : list string)
| CallRunPlugins (args : list string)
| CallRunUninstall (args : list string)
| CallRunUpdate (args : list string)
| CallRunVersion
| CallPrintUsage.

(** The strings the [switch] of [main] has a case for. *)
Definition subcommands : list string :=
  ["init"; "serve"; "start"; "install"; "plugins"; "uninstall"; "remove";
   "update"; "upgrade"; "version"; "--version"; "-v"; "help"; "--help"; "-h"].

Definition oneOf (s : string) (l : list string) : bool :=
  existsb (String.eqb s) l.

(** [main], on [os.Args] (the program name first).  [None]: the slice
    expression [os.Args[1:]] is out of range. *)
Definition main (os_Args : list string) : option call :=
  match os_Args with
  | [] => None
  | [_] => Some (CallRunServe (drop 1 os_Args))
  | _ :: arg1 :: _ =>
      if oneOf arg1 ["init"] then Some (CallRunInit (drop 2 os_Args))
      else if oneOf arg1 ["serve"; "start"]
           then Some (CallRunServe (drop 2 os_Args))
      else if oneOf arg1 ["install"]
           then Some (CallRunInstall (drop 2 os_Args))
      else if oneOf arg1 ["plugins"]
           then Some (CallRunPlugins (drop 2 os_Args))
      else if oneOf arg1 ["uninstall"; "remove"]
           then Some (CallRunUninstall (drop 2 os_Args))
      else if oneOf arg1 ["update"; "upgrade"]
           then Some (CallRunUpdate (drop 2 os_Args))
      else if oneOf arg1 ["version"; "--version"; "-v"]
           then Some CallRunVersion
      else if oneOf arg1 ["help"; "--help"; "-h"]
           then Some CallPrintUsage
      else Some (CallRunServe (drop 1 os_Args))
  end.

(** ** Notions the statements use *)

(** The descriptor [RunServe] appends for a registry entry. *)
Definition descriptorOf (absWs : string) (p : PluginEntry) : pluginConfig :=
  {| pcID := ID p; pcBinary := Binary p; pcEnabled := true;
     pcProvidesStorage := ProvidesStorage p;
     pcArgs := [workspaceArg absWs] |}.

(** The binary of a registry entry is on disk. *)
Definition onDisk (s : State) (kp : string * PluginEntry) : Prop :=
  is_Some (files s !! Binary kp.2).

#[global] Instance onDisk_dec s kp : Decision (onDisk s kp).
Proof. unfold onDisk. apply _. Defined.

(** The milliseconds slept in a run of events. *)
Fixpoint elapsed (t : list event) : Z :=
  match t with
  | [] => 0
  | Sleep ms :: r => ms + elapsed r
  | _ :: r => elapsed r
  end.

(** The hub has been force-killed this many times. *)
Fixpoint kills (t : list event) : nat :=
  match t with
  | [] => 0
  | Killed _ :: r => S (kills r)
  | _ :: r => kills r
  end.

(** Events of waiting and of starting a process, as opposed to those of
    the shutdown sequence. *)
Definition waitsOrStarts (e : event) : Prop :=
  match e with
  | Sleep _ | Started _ _ _ => True
  | _ => False
  end.

(** The state after [n] rounds of the readiness poll that neither found
    the hub ready nor ended the process. *)
Fixpoint afterPolls (n : nat) (s : State) : State :=
  match n with
  | O => s
  | S n' => afterPolls n' (tickLog (addEvent (Sleep 500) s))
  end.

(** From [s] to [s'] the code has only waited and started processes: the
    files, the deferred calls and [orchCmd] are as they were. *)
Definition quiet (s s' : State) : Prop :=
  files s' = files s /\ defers s' = defers s /\ orchCmd s' = orchCmd s
  /\ exists evs, trace s' = trace s ++ evs /\ Forall waitsOrStarts evs.

Definition finalState {A} (r : Result A) : State :=
  match r with
  | Return _ s => s
  | Exited _ s => s
  end.

(** The events of the closure [cleanup] for a hub with the given pid. *)
Definition shutdownEvents (pid : nat) : list event :=
  [Pkill ["-P"; pretty pid]; Signalled pid; Sleep 300;
   Pkill ["-9"; "-P"; pretty pid]; Killed pid].

Fixpoint allNonSpace (a : string) : bool :=
  match a with
  | "" => true
  | String c r => negb (isSpace c) && allNonSpace r
  end.

(** What [\S+] leaves behind. *)
Fixpoint dropNonSpace (s : string) : string :=
  match s with
  | "" => ""
  | String c r => if isSpace c then s else dropNonSpace r
  end.

Definition endsGroup (post : string) : bool :=
  match post with
  | "" => true
  | String c _ => isSpace c
  end.

(** The pattern [listening on (\S+)] matches [log] right after [pre], its
    group being [a] and the text after the match [post]. *)
Definition occursAt (log pre a post : string) : Prop :=
  log = pre +:+ listening +:+ a +:+ post
  /\ a <> "" /\ allNonSpace a = true /\ endsGroup post = true.

(** No match of the pattern starts before the one after [pre]. *)
Definition firstMatch (log pre : string) : Prop :=
  forall pre' a' post',
    occursAt log pre' a' post' -> String.length pre <= String.length pre'.

Definition noMatch (log : string) : Prop :=
  forall pre a post, ~ occursAt log pre a post.

(** The pid file of a run, and the command of the hub once started. *)
Definition pidFileOf (E : Env) (p : paths) : string :=
  filepath_Join E [absWorkspace p; ".orchestra-mcp.pid"].

Definition hubCmd (p : paths) (tmpConfig : string) (pid : nat) : Cmd :=
  {| Path := binsAt (bins p) "orchestrator"; Args := ["--config"; tmpConfig];
     Process := Some pid; ProcessState := None |}.

(** The pattern matches at the head of [s]. *)
Definition matchHere (s : string) : bool :=
  match stripPrefix listening s with
  | Some rest => negb (String.eqb (takeNonSpace rest) "")
  | None => false
  end.

(** No match of the pattern starts within the first [n] bytes of [log]. *)
Fixpoint noneBefore (n : nat) (log : string) : bool :=
  match n, log with
  | S n', String _ r => negb (matchHere log) && noneBefore n' r
  | _, _ => true
  end.

(** ** A concrete installation, to run the code on *)

Module Demo.

Definition join (l : list string) : string := String.concat "/" l.

Definition alpha : PluginEntry :=
  {| ID := "alpha"; Version := "v1.0.0";
     Binary := "/home/u/.orchestra/plugins/bin/alpha";
     Repo := "github.com/x/alpha"; InstalledAt := "2024-01-01T00:00:00Z";
     ProvidesTools := ["t1"; "t2"]; ProvidesStorage := [];
     NeedsStorage := ["markdown"] |}.

Definition beta : PluginEntry :=
  {| ID := "beta"; Version := "latest";
     Binary := "/home/u/.orchestra/plugins/bin/beta";
     Repo := "github.com/x/beta"; InstalledAt := "2024-01-02T00:00:00Z";
     ProvidesTools := []; ProvidesStorage := ["sql"];
     NeedsStorage := [] |}.

Definition twoPlugins : registry :=
  <["github.com/x/alpha" := alpha]> (<["github.com/x/beta" := beta]> ∅).

(** A stand-in for the JSON decoder: it accepts two documents. *)
Definition decode (data : string) : error + option registry :=
  if String.eqb data "{}" then inr None
  else if String.eqb data "two plugins" then inr (Some twoPlugins)
  else inl (ErrOther "invalid character").

Definition fetched : acquired :=
  {| aRepo := "github.com/x/gamma"; aVersion := "";
     aBinPath := "/home/u/.orchestra/plugins/bin/gamma"; aID := "gamma";
     aProvidesTools := ["g"]; aProvidesStorage := [];
     aNeedsStorage := [] |}.

(** The environment of a run in which the log reads [log k] at its k-th
    read and the processes end with status [status]. *)
Definition env (log : nat -> string) (status : Z) : Env :=
  {| flag_Parse := fun defaults _ => inr defaults;
     filepath_Abs := fun _ => inr "/w";
     filepath_Join := join;
     filepath_Dir := fun _ => "/opt/orchestra";
     filepath_EvalSymlinks := fun p => p;
     os_UserHomeDir := "/home/u";
     os_Executable := inr "/opt/orchestra/orchestra";
     os_CreateTemp := fun _ => inr "/tmp/orchestra-1.yaml";
     canWrite := fun _ => true;
     yaml_Marshal := fun _ => "listen_addr: localhost:0";
     json_Unmarshal := decode;
     json_MarshalIndent := fun _ => inr "{}";
     logAt := log;
     startProcess := fun path _ =>
       if String.eqb path "/opt/orchestra/orchestrator" then inr 4242
       else inr 4243;
     exitStatus := fun _ => status;
     exitedBy := fun _ _ => true;
     rangeRegistry := map_to_list;
     range_perm := fun m => Permutation_refl (map_to_list m);
     timeNow := "2024-02-01T00:00:00Z";
     acquire := fun _ => ret fetched;
     selfUpdate := ret tt |}.

Definition siblings : list (string * node) :=
  [("/opt/orchestra/orchestrator", File "");
   ("/opt/orchestra/storage-markdown", File "");
   ("/opt/orchestra/tools-features", File "");
   ("/opt/orchestra/transport-stdio", File "")].

(** The state at the start of a command, with the given files besides the
    sibling binaries. *)
Definition boot (extra : list (string * node)) : State :=
  {| files := list_to_map (siblings ++ extra); stderr := []; trace := [];
     logReads := 0; orchCmd := None; defers := [] |}.

Definition registryFile : string := "/home/u/.orchestra/plugins/registry.json".

Definition silentLog : nat -> string := fun _ => "".

Definition bootedLine : string := "plugin registered and booted" +:+ nl.

Definition readyLog : nat -> string := fun _ =>
  bootedLine +:+ bootedLine +:+ "listening on 127.0.0.1:54321" +:+ nl.

(** The registry lists [alpha] and [beta]; only the binary of [alpha] is
    on disk. *)
Definition installed : State :=
  boot [(registryFile, File "two plugins");
        ("/home/u/.orchestra/plugins/bin/alpha", File "")].

(** The registry file is not a JSON document. *)
Definition broken : State := boot [(registryFile, File "{")].

Definition somePaths : paths :=
  {| absWorkspace := "/w"; absCertsDir := "/home/u/.orchestra/certs";
     logFile := "/w/.orchestra-mcp.log";
     bins := makeBins (env readyLog 0) "/opt/orchestra" |}.

(** A plugin announces an address of its own before the hub does. *)
Definition twoAddressLog : nat -> string := fun _ =>
  bootedLine +:+ "listening on 10.0.0.1:7000" +:+ nl
  +:+ bootedLine +:+ "listening on 127.0.0.1:54321" +:+ nl.

(** The state in which [serve] without arguments ends. *)
Definition endOf (E : Env) (s : State) : State := finalState (RunServe E [] s).

Definition tmpName : string := "/tmp/orchestra-1.yaml".

(** The state when the configuration has been written. *)
Definition prepared : State :=
  finalState ((killStale (bins somePaths);;
               cfg ← buildConfig (env silentLog 0) somePaths;
               writeConfig (env silentLog 0) somePaths cfg) (boot [])).

(** The state right after the hub is launched. *)
Definition launched : State :=
  finalState (launch (env silentLog 0) somePaths tmpName prepared).

(** The state in which a run ends when the log stays empty. *)
Definition timedOut : State :=
  finalState (supervise (env silentLog 0) somePaths launched).

End Demo.

(** ** install.go: [parseRepoVersion] *)

(** The text before and after the last byte [c] of [s]
    ([strings.LastIndex] with a separator of one byte). *)
Fixpoint cutLast (c : ascii) (s : string) : option (string * string) :=
  match s with
  | "" => None
  | String a r =>
      match cutLast c r with
      | Some (before, after) => Some (String a before, after)
      | None => if Ascii.eqb a c then Some ("", r) else None
      end
  end.

Definition atSign : ascii := "@"%char.

Definition parseRepoVersion (s : string) : string * string :=
  match cutLast atSign s with
  | Some (repo, version) => (repo, version)
  | None => (s, "")
  end.

(** ** update.go: the comparison of versions *)

(** The text before and after the first byte [c] of [s]
    ([strings.IndexByte]). *)
Fixpoint cutFirst (c : ascii) (s : string) : option (string * string) :=
  match s with
  | "" => None
  | String a r =>
      if Ascii.eqb a c then Some ("", r)
      else match cutFirst c r with
           | Some (before, after) => Some (String a before, after)
           | None => None
           end
  end.

(** [strings.SplitN(s, sep, n)] for a separator of one byte. *)
Fixpoint SplitN (sep : ascii) (n : nat) (s : string) : list string :=
  match n with
  | O => []
  | S O => [s]
  | S n' =>
      match cutFirst sep s with
      | Some (before, after) => before :: SplitN sep n' after
      | None => [s]
      end
  end.

Definition TrimPrefix (s p : string) : string :=
  match stripPrefix p s with
  | Some r => r
  | None => s
  end.

Definition digitOf (c : ascii) : option Z :=
  let n := nat_of_ascii c in
  if ((48 <=? n) && (n <=? 57))%nat then Some (Z.of_nat n - 48)%Z else None.

Inductive numError :=
| ErrSyntax
| ErrRange.

Definition maxUint64 : Z := 18446744073709551615.

(** The loop of [strconv.ParseUint(s, 10, 64)], [n] being the value of
    the digits read so far. *)
Fixpoint parseUintFrom (n : Z) (s : string) : Z * option numError :=
  match s with
  | "" => (n, None)
  | String c r =>
      match digitOf c with
      | None => (0%Z, Some ErrSyntax)
      | Some d =>
          if (maxUint64 / 10 + 1 <=? n)%Z then (maxUint64, Some ErrRange)
          else if (maxUint64 <? n * 10 + d)%Z then (maxUint64, Some ErrRange)
          else parseUintFrom (n * 10 + d)%Z r
      end
  end.

Definition ParseUint (s : string) : Z * option numError :=
  match s with
  | "" => (0%Z, Some ErrSyntax)
  | _ => parseUintFrom 0 s
  end.

(** [strconv.ParseInt(s, 10, 64)]. *)
Definition ParseInt (s : string) : Z * option numError :=
  match s with
  | "" => (0%Z, Some ErrSyntax)
  | String c r =>
      let neg := Ascii.eqb c "-" in
      let digits := if Ascii.eqb c "+" || neg then r else s in
      match ParseUint digits with
      | (_, Some ErrSyntax) => (0%Z, Some ErrSyntax)
      | (un, _) =>
          let cutoff := (2 ^ 63)%Z in
          if negb neg && (cutoff <=? un)%Z then ((cutoff - 1)%Z, Some ErrRange)
          else if neg && (cutoff <? un)%Z then ((- cutoff)%Z, Some ErrRange)
          else (if neg then (- un)%Z else un, None)
      end
  end.

(** [n, _ := strconv.Atoi(s)], where [int] has 64 bits. *)
Definition Atoi (s : string) : Z := (ParseInt s).1.

(** [splitVersion] *)
Definition splitVersion (v : string) : string * string :=
  match cutFirst "-" (TrimPrefix v "v") with
  | Some (base, pre) => (base, pre)
  | None => (TrimPrefix v "v", "")
  end.

(** [parseSemver]: the array [parts] as a list of three numbers. *)
Definition parseSemver (base : string) : list Z :=
  take 3 (map Atoi (SplitN "." 3 base) ++ [0; 0; 0]%Z).

(** The comparison of Go strings with [>] and [<]: byte by byte. *)
Fixpoint strLess (a b : string) : bool :=
  match a, b with
  | _, "" => false
  | "", String _ _ => true
  | String x a', String y b' =>
      if (nat_of_ascii x <? nat_of_ascii y)%nat then true
      else if (nat_of_ascii y <? nat_of_ascii x)%nat then false
      else strLess a' b'
  end.

(** The loop "Compare major.minor.patch numerically": [Some b] when it
    returns [b], [None] when it runs to its end. *)
Fixpoint compareParts (cur lat : list Z) : option bool :=
  match cur, lat with
  | c :: cur', l :: lat' =>
      if (c <? l)%Z then Some true
      else if (l <? c)%Z then Some false
      else compareParts cur' lat'
  | _, _ => None
  end.

Definition isEmpty (s : string) : bool := String.eqb s "".

Definition isNewerVersion (current latest : string) : bool :=
  let '(curBase, curPre) := splitVersion current in
  let '(latBase, latPre) := splitVersion latest in
  match compareParts (parseSemver curBase) (parseSemver latBase) with
  | Some b => b
  | None =>
      if negb (isEmpty curPre) && isEmpty latPre then true
      else if isEmpty curPre && negb (isEmpty latPre) then false
      else strLess curPre latPre
  end.

(** [runSelfUpdate].  The release tag the GitHub API reports
    ([checkLatestVersion], the empty string on any error), the build-time
    variable [Version] and the download step [selfUpdate] are taken as
    given. *)
Definition runSelfUpdate (Version checkLatestVersion : string)
    (selfUpdate : string -> M (option error)) : M unit :=
  Fprintf_stderr ("Checking for updates..." +:+ nl);;
  let latest := checkLatestVersion in
  if isEmpty latest then
    Fprintf_stderr ("Could not check for updates." +:+ nl);;
    Fprintf_stderr ("Download manually: https://github.com/orchestra-mcp/framework/releases" +:+ nl)
  else if negb (isNewerVersion Version latest) then
    Fprintf_stderr ("Orchestra is up to date (" +:+ Version +:+ ")" +:+ nl)
  else
    Fprintf_stderr ("Updating orchestra " +:+ Version +:+ " → " +:+ latest
                    +:+ "..." +:+ nl +:+ nl);;
    e ← selfUpdate latest;
    match e with
    | Some err => fatal ("update failed: " +:+ errText err)
    | None =>
        Fprintf_stderr (nl +:+ "Updated to " +:+ latest
                        +:+ "! Run 'orchestra version' to verify." +:+ nl)
    end.

(** ** Further notions the statements use *)

Fixpoint hasByte (c : ascii) (s : string) : bool :=
  match s with
  | "" => false
  | String a r => Ascii.eqb a c || hasByte c r
  end.

(** The order [isNewerVersion] puts on prerelease suffixes when the
    numbers are equal: no suffix is newest. *)
Definition preNewer (curPre latPre : string) : bool :=
  if negb (isEmpty curPre) && isEmpty latPre then true
  else if isEmpty curPre && negb (isEmpty latPre) then false
  else strLess curPre latPre.

(** Every entry of a registry is filed under its own [Repo]. *)
Definition keyedByRepo (reg : registry) : Prop :=
  forall k p, reg !! k = Some p -> Repo p = k.

(** The line [RunPlugins] prints for a plugin. *)
Definition pluginLine (p : PluginEntry) : string :=
  "  " +:+ padRight 24 (ID p) +:+ " " +:+ padRight 10 (Version p) +:+ " "
  +:+ Repo p +:+ capStr p +:+ nl.

(** The entry [RunInstall] files for what it has acquired. *)
Definition entryOf (E : Env) (a : acquired) : PluginEntry :=
  {| ID := aID a;
     Version := if String.eqb (aVersion a) "" then "latest" else aVersion a;
     Binary := aBinPath a; Repo := aRepo a; InstalledAt := timeNow E;
     ProvidesTools := aProvidesTools a;
     ProvidesStorage := aProvidesStorage a;
     NeedsStorage := aNeedsStorage a |}.

(** ** A second installation, whose codec reads what it writes *)

Module Shop.

Definition gamma : PluginEntry :=
  {| ID := "gamma"; Version := "latest";
     Binary := "/home/u/.orchestra/plugins/bin/gamma";
     Repo := "github.com/x/gamma"; InstalledAt := "2024-02-01T00:00:00Z";
     ProvidesTools := ["g"]; ProvidesStorage := [];
     NeedsStorage := [] |}.

Definition known : list (string * PluginEntry) :=
  [("github.com/x/alpha", Demo.alpha); ("github.com/x/beta", Demo.beta);
   ("github.com/x/gamma", gamma)].

Fixpoint lookupKnown (l : list (string * PluginEntry)) (k : string)
    : option PluginEntry :=
  match l with
  | [] => None
  | (k', p) :: r => if String.eqb k' k then Some p else lookupKnown r k
  end.

Fixpoint splitAll (fuel : nat) (s : string) : list string :=
  match fuel with
  | O => [s]
  | S f =>
      match cutFirst "," s with
      | Some (before, after) => before :: splitAll f after
      | None => [s]
      end
  end.

(** A stand-in for the JSON codec: a registry of known plugins is written
    as the list of its keys. *)
Definition encode (m : registry) : string :=
  String.concat "," (map fst (map_to_list m)).

Fixpoint decodeKeys (keys : list string) : option registry :=
  match keys with
  | [] => Some ∅
  | k :: r =>
      match lookupKnown known k, decodeKeys r with
      | Some p, Some m => Some (<[k := p]> m)
      | _, _ => None
      end
  end.

Definition decode (data : string) : error + option registry :=
  if String.eqb data "" then inr (Some ∅)
  else match decodeKeys (splitAll (String.length data) data) with
       | Some m => inr (Some m)
       | None => inl (ErrOther "invalid character")
       end.

Definition env : Env :=
  {| flag_Parse := flag_Parse (Demo.env Demo.readyLog 0);
     filepath_Abs := filepath_Abs (Demo.env Demo.readyLog 0);
     filepath_Join := Demo.join;
     filepath_Dir := filepath_Dir (Demo.env Demo.readyLog 0);
     filepath_EvalSymlinks := fun p => p;
     os_UserHomeDir := "/home/u";
     os_Executable := inr "/opt/orchestra/orchestra";
     os_CreateTemp := fun _ => inr "/tmp/orchestra-1.yaml";
     canWrite := fun _ => true;
     yaml_Marshal := fun _ => "listen_addr: localhost:0";
     json_Unmarshal := decode;
     json_MarshalIndent := fun m => inr (encode m);
     logAt := Demo.readyLog;
     startProcess := startProcess (Demo.env Demo.readyLog 0);
     exitStatus := fun _ => 0%Z;
     exitedBy := fun _ _ => false;
     rangeRegistry := map_to_list;
     range_perm := fun m => Permutation_refl (map_to_list m);
     timeNow := "2024-02-01T00:00:00Z";
     acquire := fun _ => ret Demo.fetched;
     selfUpdate := ret tt |}.

(** The registry lists [alpha] and [beta], both binaries on disk. *)
Definition stocked : State :=
  Demo.boot [(Demo.registryFile, File (encode Demo.twoPlugins));
             (Binary Demo.alpha, File ""); (Binary Demo.beta, File "")].

(** The state in which a command ends. *)
Definition after (m : M unit) (s : State) : State := finalState (m s).

(** An installation without the transport binary. *)
Definition incomplete : State :=
  {| files := list_to_map (take 3 Demo.siblings); stderr := []; trace := [];
     logReads := 0; orchCmd := None; defers := [] |}.

(** A hub whose log is empty at the first two reads and complete from the
    third on; the transport ends with status 3. *)
Definition slowLog : nat -> string := fun k =>
  if (k <? 2)%nat then "" else Demo.readyLog k.

Definition slowEnv : Env := Demo.env slowLog 3.

Definition launchedSlow : State :=
  finalState (launch slowEnv Demo.somePaths Demo.tmpName Demo.prepared).

(** A hub that is ready at once, and a transport that ends with
    status 0. *)
Definition launchedReady : State :=
  finalState (launch (Demo.env Demo.readyLog 0) Demo.somePaths Demo.tmpName
                Demo.prepared).

Definition finished : State :=
  finalState (supervise (Demo.env Demo.readyLog 0) Demo.somePaths launchedReady).

End Shop.

(** * Properties *)

(** ** The address pattern *)

Section AddressPattern.

Lemma append_nil (t : string) : "" +:+ t = t.
Proof. reflexivity. Qed.

Lemma append_cons (c : ascii) (s t : string) :
  String c s +:+ t = String c (s +:+ t).
Proof. reflexivity. Qed.

Lemma stripPrefix_app (p s : string) : stripPrefix p (p +:+ s) = Some s.
Proof.
  induction p as [|c p IH]; [reflexivity|].
  rewrite append_cons. simpl. rewrite Ascii.eqb_refl. exact IH.
Qed.

Lemma stripPrefix_Some (p s rest : string) :
  stripPrefix p s = Some rest -> s = p +:+ rest.
Proof.
  revert s. induction p as [|c p IH]; intros s H; simpl in H.
  - injection H as ->. reflexivity.
  - destruct s as [|b s]; [discriminate|].
    destruct (Ascii.eqb_spec c b) as [->|]; [|discriminate].
    rewrite append_cons. f_equal. apply IH, H.
Qed.

Lemma take_drop_nonSpace (s : string) :
  s = takeNonSpace s +:+ dropNonSpace s
  /\ allNonSpace (takeNonSpace s) = true
  /\ endsGroup (dropNonSpace s) = true.
Proof.
  induction s as [|c r (IH1 & IH2 & IH3)]; simpl; [auto|].
  destruct (isSpace c) eqn:Hc; simpl.
  - rewrite Hc. auto.
  - rewrite Hc, append_cons. simpl. repeat split; auto. f_equal. exact IH1.
Qed.

Lemma takeNonSpace_group (a post : string) :
  allNonSpace a = true -> endsGroup post = true ->
  takeNonSpace (a +:+ post) = a.
Proof.
  intros Ha Hp. induction a as [|c a IH].
  - rewrite append_nil. destruct post as [|d post]; simpl in *; [reflexivity|].
    rewrite Hp. reflexivity.
  - rewrite append_cons. simpl in *. apply andb_prop in Ha as [Hc Ha].
    apply negb_true_iff in Hc. rewrite Hc. f_equal. apply IH, Ha.
Qed.

(** A match found at the head of the text is a match in the sense of
    [occursAt], with nothing before it. *)
Lemma head_match_occurs (s rest : string) :
  stripPrefix listening s = Some rest -> takeNonSpace rest <> "" ->
  occursAt s "" (takeNonSpace rest) (dropNonSpace rest).
Proof.
  intros Hs Hne. apply stripPrefix_Some in Hs.
  destruct (take_drop_nonSpace rest) as (H1 & H2 & H3).
  repeat split; auto. rewrite append_nil, <- H1. exact Hs.
Qed.

Lemma occursAt_cons (c : ascii) (r pre a post : string) :
  occursAt r pre a post -> occursAt (String c r) (String c pre) a post.
Proof.
  intros (H1 & H2 & H3 & H4). repeat split; auto.
  rewrite append_cons. f_equal. exact H1.
Qed.

(** The function returns the first match. *)
Lemma find_first (log pre a post : string) :
  occursAt log pre a post -> firstMatch log pre ->
  addrRe_FindStringSubmatch log = [listening +:+ a; a].
Proof.
  revert log. induction pre as [|c pre IH]; intros log Hocc Hfirst.
  - destruct Hocc as (-> & Hne & Ha & Hp). rewrite append_nil.
    unfold listening at 1. rewrite append_cons.
    cbn [addrRe_FindStringSubmatch]. rewrite <- append_cons.
    fold listening.
    rewrite stripPrefix_app, takeNonSpace_group by assumption.
    destruct a; [congruence | reflexivity].
  - destruct Hocc as (-> & Hne & Ha & Hp).
    rewrite append_cons. cbn [addrRe_FindStringSubmatch].
    set (r := pre +:+ listening +:+ a +:+ post) in *.
    assert (Hrec : addrRe_FindStringSubmatch r = [listening +:+ a; a]).
    { apply IH.
      - repeat split; auto.
      - intros pre' a' post' H'.
        apply (occursAt_cons c), Hfirst in H'. simpl in H'. lia. }
    destruct (stripPrefix listening (String c r)) as [rest|] eqn:Hs; [|exact Hrec].
    destruct (takeNonSpace rest) as [|d g] eqn:Hg; [exact Hrec|].
    exfalso.
    assert (Hocc : occursAt (String c r) "" (takeNonSpace rest) (dropNonSpace rest)).
    { apply head_match_occurs; [exact Hs | rewrite Hg; discriminate]. }
    apply Hfirst in Hocc. simpl in Hocc. lia.
Qed.

(** Without a match the function returns the empty slice. *)
Lemma find_none (log : string) :
  noMatch log -> addrRe_FindStringSubmatch log = [].
Proof.
  induction log as [|c r IH]; intros Hno; [reflexivity|].
  cbn [addrRe_FindStringSubmatch].
  assert (Hrec : addrRe_FindStringSubmatch r = []).
  { apply IH. intros pre a post H. apply (Hno (String c pre) a post).
    apply occursAt_cons, H. }
  destruct (stripPrefix listening (String c r)) as [rest|] eqn:Hs; [|exact Hrec].
  destruct (takeNonSpace rest) as [|d g] eqn:Hg; [exact Hrec|].
  exfalso. apply (Hno "" (takeNonSpace rest) (dropNonSpace rest)).
  apply head_match_occurs; [exact Hs | rewrite Hg; discriminate].
Qed.

(** The function finds a match whenever there is one. *)
Lemma find_complete (log pre a post : string) :
  occursAt log pre a post -> addrRe_FindStringSubmatch log <> [].
Proof.
  revert log. induction pre as [|c pre IH]; intros log Hocc.
  - rewrite (find_first log "" a post Hocc); [discriminate|].
    intros pre' a' post' _. simpl. lia.
  - destruct Hocc as (-> & Hne & Ha & Hp).
    rewrite append_cons. cbn [addrRe_FindStringSubmatch].
    assert (Hrec : addrRe_FindStringSubmatch (pre +:+ listening +:+ a +:+ post)
                   <> []).
    { apply IH. repeat split; auto. }
    destruct (stripPrefix listening _) as [rest|]; [|exact Hrec].
    destruct (takeNonSpace rest); [exact Hrec | discriminate].
Qed.

Lemma noMatch_check (log : string) :
  addrRe_FindStringSubmatch log = [] -> noMatch log.
Proof. intros H pre a post Hocc. exact (find_complete _ _ _ _ Hocc H). Qed.

Lemma matchHere_occurs (s a post : string) :
  occursAt s "" a post -> matchHere s = true.
Proof.
  intros (-> & Hne & Ha & Hp). rewrite append_nil. unfold matchHere.
  rewrite stripPrefix_app, takeNonSpace_group by assumption.
  destruct a; [congruence | reflexivity].
Qed.

(** The check [noneBefore] decides [firstMatch]. *)
Lemma firstMatch_check (log pre : string) :
  noneBefore (String.length pre) log = true -> firstMatch log pre.
Proof.
  intros Hchk pre' a' post' Hocc.
  destruct (le_lt_dec (String.length pre) (String.length pre')) as [|Hlt];
    [assumption|exfalso].
  revert log pre Hchk Hocc Hlt.
  induction pre' as [|c pre' IH]; intros log pre Hchk Hocc Hlt.
  - destruct pre as [|d pre]; [simpl in Hlt; lia|].
    pose proof (matchHere_occurs _ _ _ Hocc) as Hm.
    destruct Hocc as (-> & _). rewrite append_nil in *.
    unfold listening in Hchk at 1. rewrite append_cons in Hchk.
    cbn [noneBefore String.length] in Hchk.
    rewrite <- append_cons in Hchk. fold listening in Hchk.
    rewrite Hm in Hchk. discriminate.
  - destruct pre as [|d pre]; [simpl in Hlt; lia|].
    destruct Hocc as (-> & Hne & Ha & Hp).
    rewrite append_cons in Hchk. cbn [noneBefore String.length] in Hchk.
    apply andb_prop in Hchk as [_ Hchk].
    apply (IH (pre' +:+ listening +:+ a' +:+ post') pre Hchk).
    + repeat split; auto.
    + simpl in Hlt. lia.
Qed.

End AddressPattern.

(** ** The monad *)

Lemma bind_run {A B} (m : M A) (k : A -> M B) (s : State) :
  (m ≫= k) s = match m s with
               | Return a s' => k a s'
               | Exited c s' => Exited c s'
               end.
Proof. reflexivity. Qed.

Lemma bind_Return {A B} (m : M A) (k : A -> M B) (s s' : State) (a : A) :
  m s = Return a s' -> (m ≫= k) s = k a s'.
Proof. intros H. rewrite bind_run, H. reflexivity. Qed.

Lemma bind_Exited {A B} (m : M A) (k : A -> M B) (s s' : State) (c : Z) :
  m s = Exited c s' -> (m ≫= k) s = Exited c s'.
Proof. intros H. rewrite bind_run, H. reflexivity. Qed.

(** ** The command dispatcher *)

Lemma oneOf_true (a : string) (l : list string) : oneOf a l = true -> a ∈ l.
Proof.
  unfold oneOf. intros H. apply existsb_exists in H as (x & Hx & Heq).
  apply String.eqb_eq in Heq. subst x. apply list_elem_of_In, Hx.
Qed.

Lemma oneOf_false (a : string) (l : list string) :
  forallb (fun x => oneOf x subcommands) l = true ->
  a ∉ subcommands -> oneOf a l = false.
Proof.
  intros Hsub Ha. apply not_true_is_false. intros H.
  apply oneOf_true, list_elem_of_In in H.
  rewrite forallb_forall in Hsub. apply Ha, oneOf_true, Hsub, H.
Qed.

(** C10: when no argument is given, or the first argument is none of the
    subcommands, [main] calls [RunServe] with all the arguments. *)
Theorem main_defaults_to_serve (prog : string) (args : list string) :
  (args = [] \/ exists a rest, args = a :: rest /\ a ∉ subcommands) ->
  main (prog :: args) = Some (CallRunServe args).
Proof.
  intros [-> | (a & rest & -> & Ha)]; [reflexivity|].
  unfold main.
  rewrite !(oneOf_false a) by (exact Ha || reflexivity).
  reflexivity.
Qed.

Lemma main_defaults_to_serve_witness :
  (["--workspace=/x"; "--log=/tmp/l"] = []
   \/ exists a rest, ["--workspace=/x"; "--log=/tmp/l"] = a :: rest
                     /\ a ∉ subcommands)
  /\ main ["orchestra"; "--workspace=/x"; "--log=/tmp/l"]
     = Some (CallRunServe ["--workspace=/x"; "--log=/tmp/l"]).
Proof.
  assert (H : ["--workspace=/x"; "--log=/tmp/l"] = []
              \/ exists a rest, ["--workspace=/x"; "--log=/tmp/l"] = a :: rest
                                /\ a ∉ subcommands).
  { right. exists "--workspace=/x", ["--log=/tmp/l"]. split; [reflexivity|].
    unfold subcommands. rewrite !elem_of_cons, elem_of_nil.
    intros Hin. repeat destruct Hin as [Hin|Hin]; try discriminate Hin.
    exact Hin. }
  split; [exact H|].
  exact (main_defaults_to_serve "orchestra" _ H).
Defined.

(** ** The registry *)

Section Registry.

Variable E : Env.

(** [LoadRegistry] only reads. *)
Lemma LoadRegistry_reads (s : State) :
  exists r, LoadRegistry E s = Return r s.
Proof.
  unfold LoadRegistry. rewrite bind_run. unfold os_ReadFile.
  destruct (files s !! registryPath E) as [[data|]|]; simpl; eauto.
  destruct (json_Unmarshal E data) as [err|[plugins|]]; eauto.
Qed.

Lemma LoadRegistry_absent (s : State) :
  files s !! registryPath E = None ->
  LoadRegistry E s = Return (inr ∅) s.
Proof.
  intros H. unfold LoadRegistry. rewrite bind_run. unfold os_ReadFile.
  rewrite H. reflexivity.
Qed.

Lemma LoadRegistry_invalid (s : State) (data : string) (err : error) :
  files s !! registryPath E = Some (File data) ->
  json_Unmarshal E data = inl err ->
  LoadRegistry E s = Return (inl err) s.
Proof.
  intros H Hd. unfold LoadRegistry. rewrite bind_run. unfold os_ReadFile.
  rewrite H, Hd. reflexivity.
Qed.

End Registry.

(** ** The descriptor builder *)

Section Builder.

Variable E : Env.

Lemma appendPlugins_spec (absWs : string) (s : State)
    (entries : list (string * PluginEntry)) (acc : list pluginConfig) :
  appendPlugins absWs entries acc s
  = Return (acc ++ map (fun kp => descriptorOf absWs kp.2)
                       (filter (onDisk s) entries))%list s.
Proof.
  revert acc. induction entries as [|[k p] rest IH]; intros acc.
  - simpl. rewrite app_nil_r. reflexivity.
  - cbn [appendPlugins]. rewrite bind_run. unfold os_Stat.
    rewrite filter_cons.
    destruct (decide (onDisk s (k, p))) as [[n Hn]|Hn];
      unfold onDisk in Hn; simpl in Hn.
    + rewrite Hn, IH. simpl. rewrite <- app_assoc. reflexivity.
    + apply eq_None_not_Some in Hn. rewrite Hn, IH. reflexivity.
Qed.

(** What [buildConfig] returns, by what [LoadRegistry] reports. *)
Lemma buildConfig_spec (p : paths) (s : State) (r : error + registry) :
  LoadRegistry E s = Return r s ->
  buildConfig E p s
  = Return {| ListenAddr := "localhost:0"; CertsDir := absCertsDir p;
              Plugins :=
                match r with
                | inr reg =>
                    (builtinPlugins p
                     ++ map (fun kp => descriptorOf (absWorkspace p) kp.2)
                          (filter (onDisk s) (rangeRegistry E reg)))%list
                | inl _ => builtinPlugins p
                end |} s.
Proof.
  intros H. unfold buildConfig. rewrite (bind_Return _ _ _ _ _ H).
  destruct r as [err|reg]; rewrite bind_run.
  - reflexivity.
  - rewrite appendPlugins_spec. reflexivity.
Qed.

Lemma filter_split_length {A} (P : A -> Prop) `{!forall x, Decision (P x)}
    (l : list A) :
  length (filter P l) + length (filter (fun x => ~ P x) l) = length l.
Proof.
  induction l as [|x l IH]; [reflexivity|].
  rewrite !filter_cons. destruct (decide (P x)).
  - rewrite decide_False by tauto. simpl. lia.
  - rewrite decide_True by tauto. simpl. lia.
Qed.

(** C3: with a registry of [N] entries whose binary is on disk and [M]
    whose binary is not, the builder returns (it does not exit, and it
    leaves the state, the error stream included, as it was) [2 + N]
    descriptors: the two built-in ones, then one for each entry on disk. *)
Theorem builder_emits_two_plus_existing (p : paths) (s : State)
    (reg : registry) (N M : nat) :
  LoadRegistry E s = Return (inr reg) s ->
  N = length (filter (onDisk s) (map_to_list reg)) ->
  M = length (filter (fun kp => ~ onDisk s kp) (map_to_list reg)) ->
  exists cfg,
    buildConfig E p s = Return cfg s
    /\ length (Plugins cfg) = 2 + N
    /\ N + M = size reg
    /\ Plugins cfg
       ≡ₚ (builtinPlugins p
           ++ map (fun kp => descriptorOf (absWorkspace p) kp.2)
                (filter (onDisk s) (map_to_list reg)))%list.
Proof.
  intros Hload -> ->. eexists. split; [apply (buildConfig_spec _ _ _ Hload)|].
  simpl. pose proof (range_perm E reg) as Hperm.
  repeat split.
  - rewrite length_map. f_equal. f_equal. rewrite Hperm. reflexivity.
  - rewrite filter_split_length. apply length_map_to_list.
  - do 2 apply Permutation_skip. rewrite Hperm. reflexivity.
Qed.

(** C7, as the code has it: the two built-in descriptors come first
    whatever the state and the registry, both enabled; the storage one
    carries the workspace argument and the tools one carries no
    argument. *)
Theorem builtins_always_emitted (p : paths) (s : State) :
  exists storage tools rest,
    buildConfig E p s
    = Return {| ListenAddr := "localhost:0"; CertsDir := absCertsDir p;
                Plugins := storage :: tools :: rest |} s
    /\ pcID storage = "storage.markdown" /\ pcEnabled storage = true
    /\ pcArgs storage = ["--workspace=" +:+ absWorkspace p]
    /\ pcID tools = "tools.features" /\ pcEnabled tools = true
    /\ pcArgs tools = [].
Proof.
  destruct (LoadRegistry_reads E s) as [r Hr].
  rewrite (buildConfig_spec _ _ _ Hr).
  destruct r as [err|reg]; do 3 eexists; (split; [reflexivity|]);
    repeat split; reflexivity.
Qed.

End Builder.

Lemma builder_emits_two_plus_existing_witness :
  LoadRegistry (Demo.env Demo.readyLog 0) Demo.installed
  = Return (inr Demo.twoPlugins) Demo.installed
  /\ 1 = length (filter (onDisk Demo.installed) (map_to_list Demo.twoPlugins))
  /\ 1 = length (filter (fun kp => ~ onDisk Demo.installed kp)
                   (map_to_list Demo.twoPlugins))
  /\ exists cfg,
       buildConfig (Demo.env Demo.readyLog 0) Demo.somePaths Demo.installed
       = Return cfg Demo.installed
       /\ length (Plugins cfg) = 2 + 1
       /\ 1 + 1 = size Demo.twoPlugins
       /\ Plugins cfg
          ≡ₚ (builtinPlugins Demo.somePaths
              ++ map (fun kp => descriptorOf (absWorkspace Demo.somePaths) kp.2)
                   (filter (onDisk Demo.installed)
                      (map_to_list Demo.twoPlugins)))%list.
Proof.
  assert (H1 : LoadRegistry (Demo.env Demo.readyLog 0) Demo.installed
               = Return (inr Demo.twoPlugins) Demo.installed)
    by (vm_compute; reflexivity).
  assert (H2 : 1 = length (filter (onDisk Demo.installed)
                             (map_to_list Demo.twoPlugins)))
    by (vm_compute; reflexivity).
  assert (H3 : 1 = length (filter (fun kp => ~ onDisk Demo.installed kp)
                             (map_to_list Demo.twoPlugins)))
    by (vm_compute; reflexivity).
  split; [exact H1|]. split; [exact H2|]. split; [exact H3|].
  exact (builder_emits_two_plus_existing (Demo.env Demo.readyLog 0)
           Demo.somePaths Demo.installed Demo.twoPlugins 1 1 H1 H2 H3).
Defined.

(** C7 as the claim has it fails: in the configuration built for the
    demonstration installation the tools descriptor is among the first two
    and carries no [--workspace=] argument. *)
Lemma builtins_workspace_counterexample :
  exists cfg,
    buildConfig (Demo.env Demo.readyLog 0) Demo.somePaths Demo.installed
    = Return cfg Demo.installed
    /\ ~ (forall d, d ∈ take 2 (Plugins cfg) ->
            pcEnabled d = true
            /\ workspaceArg (absWorkspace Demo.somePaths) ∈ pcArgs d).
Proof.
  eexists. split; [vm_compute; reflexivity|].
  intros H.
  destruct (H {| pcID := "tools.features";
                 pcBinary := "/opt/orchestra/tools-features";
                 pcEnabled := true; pcProvidesStorage := [];
                 pcArgs := [] |}) as [_ Hin].
  - simpl. apply list_elem_of_further, list_elem_of_here.
  - simpl in Hin. apply elem_of_nil in Hin. exact Hin.
Qed.

(** ** The supervisor *)

Section Supervisor.

Variable E : Env.

(** The state in which [launch] hands over to the readiness wait. *)
Lemma launch_Return (p : paths) (tmpConfig : string) (s0 s : State) :
  launch E p tmpConfig s0 = Return tt s ->
  exists pid,
    orchCmd s = Some (hubCmd p tmpConfig pid)
    /\ defers s = DeferRemove (pidFileOf E p) :: DeferClose
                  :: DeferCleanup tmpConfig :: defers s0
    /\ trace s = trace s0
                 ++ [Started (binsAt (bins p) "orchestrator")
                       ["--config"; tmpConfig] pid]
    /\ stderr s = stderr s0
    /\ logReads s = logReads s0.
Proof.
  intros H.
  unfold launch, Cmd_Start, exec_Command, os_OpenFile_append, defer,
    assignOrchCmd, emit, fatal, Fprintf_stderr, os_Exit, panic, os_WriteFile,
    mbind, M_bind, bind, mret, M_ret, ret in H.
  simpl in H.
  repeat case_match; simplify_eq; simpl in *.
  all: eexists; repeat split; reflexivity.
Qed.

Lemma afterPolls_proj (n : nat) (s : State) :
  files (afterPolls n s) = files s
  /\ stderr (afterPolls n s) = stderr s
  /\ trace (afterPolls n s) = trace s ++ repeat (Sleep 500) n
  /\ logReads (afterPolls n s) = logReads s + n
  /\ orchCmd (afterPolls n s) = orchCmd s
  /\ defers (afterPolls n s) = defers s.
Proof.
  revert s. induction n as [|n IH]; intros s; simpl.
  - rewrite app_nil_r. repeat split; lia.
  - destruct (IH (tickLog (addEvent (Sleep 500) s)))
      as (H1 & H2 & H3 & H4 & H5 & H6).
    simpl in *. rewrite <- app_assoc in H3. repeat split; auto. lia.
Qed.

Lemma afterPolls_S (n : nat) (s : State) :
  afterPolls (S n) s = tickLog (addEvent (Sleep 500) (afterPolls n s)).
Proof.
  revert s. induction n as [|n IH]; intros s; [reflexivity|].
  change (afterPolls (S (S n)) s)
    with (afterPolls (S n) (tickLog (addEvent (Sleep 500) s))).
  rewrite IH. reflexivity.
Qed.

(** One round of the loop: with the process state of the hub unset, the
    round either finds the hub ready or goes on to the next one. *)
Lemma pollLoop_step (n : nat) (log : string) (s : State) (cmd : Cmd) :
  orchCmd s = Some cmd -> ProcessState cmd = None ->
  pollLoop E (S n) log s
  = if (2 <=? Count (logAt E (logReads s)) marker)%nat
    then Return true (afterPolls 1 s)
    else pollLoop E n log (afterPolls 1 s).
Proof.
  intros Hc Hp. cbn [pollLoop].
  unfold time_Sleep, emit, readLog, getOrchCmd, mbind, M_bind, bind,
    mret, M_ret, ret. simpl.
  destruct (Count (logAt E (logReads s)) marker) as [|[|booted]]; simpl;
    rewrite ?Hc, ?Hp; reflexivity.
Qed.

(** As long as the log shows fewer than two markers the loop runs all its
    rounds and reports [ready = false]. *)
Lemma pollLoop_never_ready (n : nat) (log : string) (s : State) (cmd : Cmd) :
  orchCmd s = Some cmd -> ProcessState cmd = None ->
  (forall k, k < n -> Count (logAt E (logReads s + k)) marker < 2) ->
  pollLoop E n log s = Return false (afterPolls n s).
Proof.
  revert s. induction n as [|n IH]; intros s Hc Hp Hlog; [reflexivity|].
  rewrite (pollLoop_step _ _ _ _ Hc Hp).
  pose proof (Hlog 0 ltac:(lia)) as H0. rewrite Nat.add_0_r in H0.
  apply Nat.leb_gt in H0. rewrite H0.
  apply IH; simpl; auto.
  intros k Hk. replace (S (logReads s + k)) with (logReads s + S k) by lia.
  apply Hlog. lia.
Qed.

(** Whatever the log shows, the loop returns after at most [n] rounds; it
    never ends the process. *)
Lemma pollLoop_returns (n : nat) (log : string) (s : State) (cmd : Cmd) :
  orchCmd s = Some cmd -> ProcessState cmd = None ->
  exists ready k, k <= n /\ pollLoop E n log s = Return ready (afterPolls k s).
Proof.
  revert s. induction n as [|n IH]; intros s Hc Hp.
  - exists false, 0. split; [lia | reflexivity].
  - rewrite (pollLoop_step _ _ _ _ Hc Hp).
    destruct (2 <=? Count (logAt E (logReads s)) marker)%nat.
    + exists true, 1. split; [lia | reflexivity].
    + destruct (IH (afterPolls 1 s)) as (ready & k & Hk & Hrun); auto.
      exists ready, (S k). split; [lia|]. exact Hrun.
Qed.

Lemma addStderr_proj (line : string) (s : State) :
  trace (addStderr line s) = trace s
  /\ stderr (addStderr line s) = stderr s ++ [line]
  /\ logReads (addStderr line s) = logReads s.
Proof. repeat split. Qed.

(** C4: once the hub is launched, if none of the thirty reads of the log
    shows two markers, the readiness wait sleeps thirty times 500 ms
    (15 seconds), reads the log thirty times, and then ends the process
    with status 1 and a line that names the log file. *)
Theorem readiness_poll_times_out (p : paths) (tmpConfig : string)
    (s0 s : State) :
  launch E p tmpConfig s0 = Return tt s ->
  (forall k, k < 30 -> Count (logAt E (logReads s + k)) marker < 2) ->
  exists s',
    awaitReady E p s = Exited 1 s'
    /\ trace s' = trace s ++ repeat (Sleep 500) 30
    /\ elapsed (repeat (Sleep 500) 30) = 15000%Z
    /\ logReads s' = logReads s + 30
    /\ stderr s'
       = stderr s
         ++ [fatalLine ("orchestrator did not become ready in 15 seconds. Check "
                        +:+ logFile p)].
Proof.
  intros Hl Hlog. apply launch_Return in Hl as (pid & Hc & _).
  eexists. split.
  - unfold awaitReady. rewrite bind_run.
    rewrite (pollLoop_never_ready _ _ _ _ Hc eq_refl Hlog). reflexivity.
  - destruct (afterPolls_proj 30 s) as (H1 & H2 & H3 & H4 & H5 & H6).
    destruct (addStderr_proj
                (fatalLine ("orchestrator did not become ready in 15 seconds. Check "
                            +:+ logFile p)) (afterPolls 30 s))
      as (A1 & A2 & A3).
    rewrite A1, A2, A3, H2, H3, H4. repeat split; reflexivity.
Qed.

(** C2, on the code: a hub that has ended before the first poll, having
    written fewer than two markers, is still polled thirty times; the
    process ends with the line of the timeout, not with that of an
    unexpected exit. *)
Theorem dead_hub_polled_to_ceiling (p : paths) (tmpConfig : string)
    (s0 s : State) (pid : nat) :
  launch E p tmpConfig s0 = Return tt s ->
  orchCmd s = Some (hubCmd p tmpConfig pid) ->
  (forall k, exitedBy E pid k = true) ->
  (forall k, k < 30 -> Count (logAt E (logReads s + k)) marker < 2) ->
  exists s',
    awaitReady E p s = Exited 1 s'
    /\ trace s' = trace s ++ repeat (Sleep 500) 30
    /\ stderr s'
       = stderr s
         ++ [fatalLine ("orchestrator did not become ready in 15 seconds. Check "
                        +:+ logFile p)].
Proof.
  intros Hl Hc _ Hlog.
  eexists. split.
  - unfold awaitReady. rewrite bind_run.
    rewrite (pollLoop_never_ready _ _ _ _ Hc eq_refl Hlog). reflexivity.
  - destruct (afterPolls_proj 30 s) as (H1 & H2 & H3 & H4 & H5 & H6).
    destruct (addStderr_proj
                (fatalLine ("orchestrator did not become ready in 15 seconds. Check "
                            +:+ logFile p)) (afterPolls 30 s))
      as (A1 & A2 & A3).
    rewrite A1, A2, H2, H3. split; reflexivity.
Qed.

Lemma quiet_refl (s : State) : quiet s s.
Proof.
  repeat split. exists []. split; [symmetry; apply app_nil_r | constructor].
Qed.

Lemma quiet_trans (s1 s2 s3 : State) : quiet s1 s2 -> quiet s2 s3 -> quiet s1 s3.
Proof.
  intros (F1 & D1 & C1 & e1 & T1 & W1) (F2 & D2 & C2 & e2 & T2 & W2).
  repeat split; try congruence.
  exists (e1 ++ e2). split.
  - rewrite T2, T1, app_assoc. reflexivity.
  - apply Forall_app. split; assumption.
Qed.

Lemma quiet_afterPolls (n : nat) (s : State) : quiet s (afterPolls n s).
Proof.
  destruct (afterPolls_proj n s) as (H1 & H2 & H3 & H4 & H5 & H6).
  repeat split; auto. exists (repeat (Sleep 500) n). split; [exact H3|].
  apply Forall_forall. intros e He. apply list_elem_of_In, repeat_spec in He.
  subst e. exact I.
Qed.

(** The readiness wait either returns or ends the process with status 1;
    either way it has only slept. *)
Lemma awaitReady_quiet (p : paths) (s : State) (cmd : Cmd) :
  orchCmd s = Some cmd -> ProcessState cmd = None ->
  exists s1,
    (awaitReady E p s = Return tt s1 /\ quiet s s1)
    \/ (awaitReady E p s = Exited 1 (addStderr
          (fatalLine ("orchestrator did not become ready in 15 seconds. Check "
                      +:+ logFile p)) s1)
        /\ quiet s s1).
Proof.
  intros Hc Hp.
  destruct (pollLoop_returns 30 (logFile p) s cmd Hc Hp) as (ready & k & _ & Hrun).
  exists (afterPolls k s). unfold awaitReady. rewrite bind_run, Hrun.
  destruct ready; [left | right]; (split; [reflexivity | apply quiet_afterPolls]).
Qed.

(** Address extraction and the transport: whether they return or end the
    process, they have only read the log and started the transport. *)
Lemma handOff_quiet (p : paths) (s : State) :
  exists s1, quiet s s1
    /\ (handOff E p s = Return tt s1 \/ exists c, handOff E p s = Exited c s1).
Proof.
  unfold handOff, runTransport, Cmd_Run, Cmd_Start, Cmd_Wait, exec_Command,
    readLog, fatal, Fprintf_stderr, os_Exit, emit,
    mbind, M_bind, bind, mret, M_ret, ret.
  simpl.
  destruct (length (addrRe_FindStringSubmatch (logAt E (logReads s))) <? 2)%nat.
  - eexists. split; [|right; eexists; reflexivity].
    repeat split. exists []. split; [symmetry; apply app_nil_r | constructor].
  - destruct (startProcess E _ _) as [err|pid]; simpl.
    + eexists. split; [|left; reflexivity].
      repeat split. exists []. split; [symmetry; apply app_nil_r | constructor].
    + destruct (exitStatus E pid =? 0)%Z; simpl.
      * eexists. split; [|left; reflexivity].
        repeat split. eexists. split; [reflexivity|].
        repeat constructor.
      * eexists. split; [|right; eexists; reflexivity].
        repeat split. eexists. split; [reflexivity|].
        repeat constructor.
Qed.

(** The deferred calls, and so the return from [RunServe], never end the
    process. *)
Lemma runDeferred_returns (d : deferCall) (s : State) :
  exists s', runDeferred d s = Return tt s'.
Proof.
  destruct d as [tmpConfig| |path]; unfold runDeferred, cleanup, getOrchCmd,
    pkill, time_Sleep, emit, os_Remove, mbind, M_bind, bind, mret, M_ret, ret;
    simpl.
  - destruct (orchCmd s ≫= Process); simpl;
      repeat case_match; simplify_eq; eauto.
  - eauto.
  - repeat case_match; simplify_eq; eauto.
Qed.

Lemma forM_runDeferred_returns (ds : list deferCall) (s : State) :
  exists s', forM_ ds runDeferred s = Return tt s'.
Proof.
  revert s. induction ds as [|d ds IH]; intros s; simpl; [eexists; reflexivity|].
  rewrite bind_run. destruct (runDeferred_returns d s) as [s1 ->]. apply IH.
Qed.

Lemma returnFrom_returns (s : State) : exists s', returnFrom s = Return tt s'.
Proof. apply forM_runDeferred_returns. Qed.

(** C1, on the code: once the hub is launched, whenever [RunServe] ends
    through [os.Exit] (a fatal error or a non-zero exit of the transport)
    the shutdown sequence has not run: the files, the temporary
    configuration among them, are as they were after the launch, the
    deferred cleanup is still pending, and since the launch the supervisor
    has done nothing but sleep and start processes. *)
Theorem exit_skips_shutdown (p : paths) (tmpConfig : string)
    (s0 s s' : State) (c : Z) :
  launch E p tmpConfig s0 = Return tt s ->
  supervise E p s = Exited c s' ->
  files s' = files s
  /\ DeferCleanup tmpConfig ∈ defers s'
  /\ exists evs, trace s' = trace s ++ evs /\ Forall waitsOrStarts evs.
Proof.
  intros Hl Hrun. apply launch_Return in Hl as (pid & Hc & Hd & _).
  assert (Hq : quiet s s').
  { unfold supervise in Hrun. rewrite bind_run in Hrun.
    destruct (awaitReady_quiet p s _ Hc eq_refl) as (s1 & [[Ha Hq1] | [Ha Hq1]]);
      rewrite Ha in Hrun.
    - rewrite bind_run in Hrun.
      destruct (handOff_quiet p s1) as (s2 & Hq2 & [Hh | [c' Hh]]);
        rewrite Hh in Hrun.
      + destruct (returnFrom_returns s2) as [s3 Hr].
        rewrite Hr in Hrun. discriminate.
      + injection Hrun as _ <-. eapply quiet_trans; eassumption.
    - injection Hrun as _ <-.
      destruct Hq1 as (F & D & C & evs & T & W). repeat split; auto.
      exists evs. auto. }
  destruct Hq as (F & D & C & evs & T & W).
  split; [exact F|]. split; [|exists evs; auto].
  rewrite D, Hd. apply list_elem_of_further, list_elem_of_further, list_elem_of_here.
Qed.

(** The closure [cleanup] always returns; of the files it touches only
    [tmpConfig]. *)
Lemma cleanup_run (tmpConfig : string) (s : State) :
  exists s',
    cleanup tmpConfig s = Return tt s'
    /\ stderr s' = stderr s
    /\ files s' = match files s !! tmpConfig with
                  | Some (File _) => delete tmpConfig (files s)
                  | _ => files s
                  end.
Proof.
  unfold cleanup, getOrchCmd, pkill, time_Sleep, emit, os_Remove,
    mbind, M_bind, bind, mret, M_ret, ret.
  simpl.
  destruct (orchCmd s) as [[path args [pid|] st]|]; simpl;
    destruct (files s !! tmpConfig) as [[data|]|]; simpl;
    eexists; repeat split; reflexivity.
Qed.

(** Running [cleanup] a second time returns as well and changes neither
    the files nor the error stream. *)
Lemma cleanup_twice (tmpConfig : string) (s : State) :
  exists s1 s2,
    cleanup tmpConfig s = Return tt s1
    /\ cleanup tmpConfig s1 = Return tt s2
    /\ files s2 = files s1 /\ stderr s2 = stderr s1
    /\ ~ (exists data, files s2 !! tmpConfig = Some (File data)).
Proof.
  destruct (cleanup_run tmpConfig s) as (s1 & R1 & E1 & F1).
  destruct (cleanup_run tmpConfig s1) as (s2 & R2 & E2 & F2).
  exists s1, s2. split; [exact R1|]. split; [exact R2|].
  assert (Hno : ~ (exists data, files s1 !! tmpConfig = Some (File data))).
  { rewrite F1. intros [data H].
    destruct (files s !! tmpConfig) as [[d|]|] eqn:Hs.
    - rewrite lookup_delete_eq in H. discriminate.
    - congruence.
    - congruence. }
  assert (F : files s2 = files s1).
  { rewrite F2. destruct (files s1 !! tmpConfig) as [[d|]|] eqn:Hs; auto.
    exfalso. apply Hno. eauto. }
  repeat split; auto. rewrite F. exact Hno.
Qed.

(** On the normal return the deferred calls run: the pid file is removed,
    the log closed and the shutdown sequence performed, once. *)
Lemma normal_return_shuts_down_once (p : paths) (tmpConfig : string)
    (s0 s s' : State) :
  defers s0 = [] ->
  launch E p tmpConfig s0 = Return tt s ->
  supervise E p s = Return tt s' ->
  exists evs pid,
    orchCmd s = Some (hubCmd p tmpConfig pid)
    /\ trace s' = trace s ++ evs ++ Closed :: shutdownEvents pid
    /\ Forall waitsOrStarts evs
    /\ defers s' = []
    /\ ~ (exists data, files s' !! tmpConfig = Some (File data)).
Proof.
  intros Hd0 Hl Hrun. apply launch_Return in Hl as (pid & Hc & Hd & _).
  rewrite Hd0 in Hd.
  unfold supervise in Hrun. rewrite bind_run in Hrun.
  destruct (awaitReady_quiet p s _ Hc eq_refl) as (s1 & [[Ha Hq1] | [Ha Hq1]]);
    rewrite Ha in Hrun; [|discriminate].
  rewrite bind_run in Hrun.
  destruct (handOff_quiet p s1) as (s2 & Hq2 & [Hh | [c' Hh]]);
    rewrite Hh in Hrun; [|discriminate].
  destruct (quiet_trans _ _ _ Hq1 Hq2) as (F & D & C & evs & T & W).
  exists evs, pid. split; [exact Hc|].
  unfold returnFrom in Hrun. rewrite D, Hd in Hrun.
  unfold forM_, runDeferred, cleanup, getOrchCmd, pkill, time_Sleep, emit,
    os_Remove, mbind, M_bind, bind, mret, M_ret, ret in Hrun.
  simpl in Hrun.
  destruct (files s2 !! pidFileOf E p) as [[pidData|]|] eqn:Hpf;
    simpl in Hrun; rewrite C, Hc in Hrun; simpl in Hrun;
    repeat case_match; simplify_eq; simpl in *;
    rewrite T; repeat split; auto;
    try (intros [contents Hcontents]; simplify_map_eq);
    rewrite <- !app_assoc; reflexivity.
Qed.

(** The handler of a signal performs the shutdown sequence once and ends
    the process with status 0. *)
Lemma onSignal_shuts_down_once (p : paths) (tmpConfig : string)
    (s : State) (pid : nat) :
  orchCmd s = Some (hubCmd p tmpConfig pid) ->
  exists s', onSignal tmpConfig s = Exited 0 s'
             /\ trace s' = trace s ++ shutdownEvents pid.
Proof.
  intros Hc.
  unfold onSignal, cleanup, getOrchCmd, pkill, time_Sleep, emit, os_Remove,
    os_Exit, mbind, M_bind, bind, mret, M_ret, ret.
  simpl. rewrite Hc. simpl.
  repeat case_match; simplify_eq; eexists; split; try reflexivity;
    simpl; rewrite <- !app_assoc; reflexivity.
Qed.

(** C8, on the code: [cleanup] can be run twice, the second run changing
    nothing; but when a signal arrives after the launch, the handler runs
    [cleanup] (the hub is killed, the temporary configuration removed) and
    ends the process with the pid file still on disk. *)
Theorem signal_cleanup_keeps_pid_file (p : paths) (tmpConfig : string)
    (s0 s : State) (d : string) :
  launch E p tmpConfig s0 = Return tt s ->
  files s !! pidFileOf E p = Some (File d) ->
  pidFileOf E p <> tmpConfig ->
  exists pid s1 s2,
    onSignal tmpConfig s = Exited 0 s1
    /\ trace s1 = trace s ++ shutdownEvents pid
    /\ ~ (exists data, files s1 !! tmpConfig = Some (File data))
    /\ files s1 !! pidFileOf E p = Some (File d)
    /\ cleanup tmpConfig s1 = Return tt s2
    /\ files s2 = files s1 /\ stderr s2 = stderr s.
Proof.
  intros Hl Hpid Hne. apply launch_Return in Hl as (pid & Hc & _).
  destruct (cleanup_twice tmpConfig s) as (s1 & s2 & R1 & R2 & F & St & Hno).
  destruct (cleanup_run tmpConfig s) as (s1' & R1' & E1 & F1).
  rewrite R1 in R1'. injection R1' as <-.
  destruct (onSignal_shuts_down_once p tmpConfig s pid Hc) as (s1' & Hsig & Htr).
  assert (Hsig' : onSignal tmpConfig s = Exited 0 s1).
  { unfold onSignal. rewrite bind_run, R1. reflexivity. }
  rewrite Hsig' in Hsig. injection Hsig as <-.
  exists pid, s1, s2. split; [exact Hsig'|]. split; [exact Htr|].
  split; [rewrite <- F; exact Hno|].
  split; [|repeat split; congruence].
  rewrite F1. destruct (files s !! tmpConfig) as [[data|]|]; auto.
  rewrite lookup_delete_ne by congruence. exact Hpid.
Qed.

(** With a match in the log, the transport is run on the group of the
    match the function returns. *)
Lemma handOff_found (p : paths) (s : State) (whole a : string) :
  addrRe_FindStringSubmatch (logAt E (logReads s)) = [whole; a] ->
  handOff E p s = runTransport E p a (tickLog s).
Proof.
  intros H. unfold handOff, readLog. rewrite bind_run, H. reflexivity.
Qed.

Lemma handOff_none (p : paths) (s : State) :
  addrRe_FindStringSubmatch (logAt E (logReads s)) = [] ->
  handOff E p s
  = Exited 1 (addStderr
                (fatalLine ("could not determine orchestrator address. Check "
                            +:+ logFile p)) (tickLog s)).
Proof.
  intros H. unfold handOff, readLog. rewrite bind_run, H. reflexivity.
Qed.

(** What [runTransport] starts. *)
Lemma runTransport_starts (p : paths) (a : string) (s : State) (pid : nat) :
  startProcess E (binsAt (bins p) "transport-stdio") (transportArgs p a)
  = inr pid ->
  trace (finalState (runTransport E p a s))
  = trace s ++ [Started (binsAt (bins p) "transport-stdio")
                  ["--orchestrator-addr=" +:+ a;
                   "--certs-dir=" +:+ absCertsDir p] pid].
Proof.
  intros H.
  unfold runTransport, Cmd_Run, Cmd_Start, Cmd_Wait, exec_Command, os_Exit,
    emit, mbind, M_bind, bind, mret, M_ret, ret.
  simpl. rewrite H. simpl.
  destruct (exitStatus E pid =? 0)%Z; reflexivity.
Qed.

(** C9: when the log read for the extraction has one or more matches of
    the pattern, the transport is run with the address of the match that
    starts first, and that address is the argument it is started with. *)
Theorem first_address_goes_to_transport (p : paths) (s : State)
    (pre a post : string) :
  occursAt (logAt E (logReads s)) pre a post ->
  firstMatch (logAt E (logReads s)) pre ->
  handOff E p s = runTransport E p a (tickLog s)
  /\ forall pid,
       startProcess E (binsAt (bins p) "transport-stdio") (transportArgs p a)
       = inr pid ->
       trace (finalState (handOff E p s))
       = trace s ++ [Started (binsAt (bins p) "transport-stdio")
                       ["--orchestrator-addr=" +:+ a;
                        "--certs-dir=" +:+ absCertsDir p] pid].
Proof.
  intros Hocc Hfirst.
  pose proof (handOff_found p s _ _ (find_first _ _ _ _ Hocc Hfirst)) as H.
  split; [exact H|]. intros pid Hpid. rewrite H.
  apply (runTransport_starts p a (tickLog s) pid Hpid).
Qed.

(** C5, as the code has it: when the first match of the pattern in the
    log is [listening on 127.0.0.1:54321] (the address followed by white
    space or by the end of the log), the transport is run with exactly
    [127.0.0.1:54321]; when the log has no match, the process ends with
    status 1 and a line about the address, without starting the
    transport. *)
Theorem address_extracted_or_fatal (p : paths) (s : State) :
  (forall pre post,
     occursAt (logAt E (logReads s)) pre "127.0.0.1:54321" post ->
     firstMatch (logAt E (logReads s)) pre ->
     handOff E p s = runTransport E p "127.0.0.1:54321" (tickLog s)
     /\ transportArgs p "127.0.0.1:54321"
        = ["--orchestrator-addr=127.0.0.1:54321";
           "--certs-dir=" +:+ absCertsDir p])
  /\ (noMatch (logAt E (logReads s)) ->
      handOff E p s
      = Exited 1 (addStderr
                    (fatalLine ("could not determine orchestrator address. Check "
                                +:+ logFile p)) (tickLog s))
      /\ trace (finalState (handOff E p s)) = trace s).
Proof.
  split.
  - intros pre post Hocc Hfirst. split; [|reflexivity].
    apply (handOff_found p s _ _ (find_first _ _ _ _ Hocc Hfirst)).
  - intros Hno. rewrite (handOff_none p s (find_none _ Hno)).
    split; reflexivity.
Qed.

End Supervisor.

(** ** The consumers of the registry *)

Section Consumers.

Variable E : Env.

(** C6, as the code has it: [LoadRegistry] returns the empty registry and
    no error when the file is absent, and the error of the decoder when
    the file is there but is rejected by it.  On that error the plugins,
    uninstall, update and install commands end the process with status 1
    and a line on the error stream; the supervisor does not: it builds its
    configuration from the two built-in plugins alone, writes nothing to
    the error stream and goes on. *)
Theorem registry_errors_by_consumer (s : State) :
  (files s !! registryPath E = None ->
   LoadRegistry E s = Return (inr ∅) s)
  /\ (forall data err,
        files s !! registryPath E = Some (File data) ->
        json_Unmarshal E data = inl err ->
        LoadRegistry E s = Return (inl err) s
        /\ (forall args,
              RunPlugins E args s
              = Exited 1 (addStderr
                            (fatalLine ("load registry: " +:+ errText err)) s))
        /\ (forall target rest,
              RunUninstall E (target :: rest) s
              = Exited 1 (addStderr
                            (fatalLine ("load registry: " +:+ errText err)) s))
        /\ (forall target rest,
              RunUpdate E (target :: rest) s
              = Exited 1 (addStderr
                            (fatalLine ("load registry: " +:+ errText err)) s))
        /\ (forall args a s0,
              acquire E args s0 = Return a s ->
              RunInstall E args s0
              = Exited 1 (addStderr
                            (fatalLine ("load registry: " +:+ errText err)) s))
        /\ (forall p,
              buildConfig E p s
              = Return {| ListenAddr := "localhost:0";
                          CertsDir := absCertsDir p;
                          Plugins := builtinPlugins p |} s)).
Proof.
  split; [apply LoadRegistry_absent|].
  intros data err Hfile Hdec.
  pose proof (LoadRegistry_invalid E s data err Hfile Hdec) as Hload.
  split; [exact Hload|].
  split; [|split; [|split; [|split]]].
  - intros args. unfold RunPlugins. rewrite (bind_Return _ _ _ _ _ Hload).
    reflexivity.
  - intros target rest. unfold RunUninstall.
    rewrite (bind_Return _ _ _ _ _ Hload). reflexivity.
  - intros target rest. unfold RunUpdate.
    rewrite (bind_Return _ _ _ _ _ Hload). reflexivity.
  - intros args a s0 Hacq. unfold RunInstall.
    rewrite (bind_Return _ _ _ _ _ Hacq), (bind_Return _ _ _ _ _ Hload).
    reflexivity.
  - intros p. apply (buildConfig_spec E p s (inl err) Hload).
Qed.

End Consumers.

Lemma registry_errors_by_consumer_witness :
  files Demo.broken !! registryPath (Demo.env Demo.readyLog 0)
  = Some (File "{")
  /\ json_Unmarshal (Demo.env Demo.readyLog 0) "{"
     = inl (ErrOther "invalid character")
  /\ RunPlugins (Demo.env Demo.readyLog 0) [] Demo.broken
     = Exited 1 (addStderr
                   (fatalLine ("load registry: "
                               +:+ errText (ErrOther "invalid character")))
                   Demo.broken)
  /\ buildConfig (Demo.env Demo.readyLog 0) Demo.somePaths Demo.broken
     = Return {| ListenAddr := "localhost:0";
                 CertsDir := absCertsDir Demo.somePaths;
                 Plugins := builtinPlugins Demo.somePaths |} Demo.broken.
Proof.
  assert (H1 : files Demo.broken !! registryPath (Demo.env Demo.readyLog 0)
               = Some (File "{")) by (vm_compute; reflexivity).
  assert (H2 : json_Unmarshal (Demo.env Demo.readyLog 0) "{"
               = inl (ErrOther "invalid character")) by reflexivity.
  destruct (registry_errors_by_consumer (Demo.env Demo.readyLog 0) Demo.broken)
    as [_ H].
  destruct (H "{" (ErrOther "invalid character") H1 H2)
    as (_ & Hplugins & _ & _ & _ & Hbuild).
  split; [exact H1|]. split; [exact H2|].
  split; [exact (Hplugins []) | exact (Hbuild Demo.somePaths)].
Defined.

(** C6 as the claim has it fails: with a registry file that the decoder
    rejects, [RunServe] is not ended by a fatal error.  It runs to its
    normal return and writes nothing to the error stream. *)
Lemma invalid_registry_not_fatal_counterexample :
  LoadRegistry (Demo.env Demo.readyLog 0) Demo.broken
  = Return (inl (ErrOther "invalid character")) Demo.broken
  /\ RunServe (Demo.env Demo.readyLog 0) [] Demo.broken
     = Return tt (Demo.endOf (Demo.env Demo.readyLog 0) Demo.broken)
  /\ stderr (Demo.endOf (Demo.env Demo.readyLog 0) Demo.broken) = []
  /\ kills (trace (Demo.endOf (Demo.env Demo.readyLog 0) Demo.broken)) = 1.
Proof.
  split; [vm_compute; reflexivity|]. split; [vm_compute; reflexivity|].
  split; vm_compute; reflexivity.
Qed.

(** ** The theorems at the demonstration installation *)

Lemma launched_ok :
  launch (Demo.env Demo.silentLog 0) Demo.somePaths Demo.tmpName Demo.prepared
  = Return tt Demo.launched.
Proof. vm_compute. reflexivity. Defined.

Lemma silent_log_never_ready (k : nat) :
  k < 30 ->
  Count (logAt (Demo.env Demo.silentLog 0) (logReads Demo.launched + k)) marker
  < 2.
Proof. intros _. cbn. lia. Defined.

Lemma readiness_poll_times_out_witness :
  launch (Demo.env Demo.silentLog 0) Demo.somePaths Demo.tmpName Demo.prepared
  = Return tt Demo.launched
  /\ (forall k, k < 30 ->
        Count (logAt (Demo.env Demo.silentLog 0) (logReads Demo.launched + k))
          marker < 2)
  /\ exists s',
       awaitReady (Demo.env Demo.silentLog 0) Demo.somePaths Demo.launched
       = Exited 1 s'
       /\ trace s' = trace Demo.launched ++ repeat (Sleep 500) 30
       /\ elapsed (repeat (Sleep 500) 30) = 15000%Z
       /\ logReads s' = logReads Demo.launched + 30
       /\ stderr s'
          = stderr Demo.launched
            ++ [fatalLine ("orchestrator did not become ready in 15 seconds. Check "
                           +:+ logFile Demo.somePaths)].
Proof.
  split; [exact launched_ok|]. split; [exact silent_log_never_ready|].
  exact (readiness_poll_times_out (Demo.env Demo.silentLog 0) Demo.somePaths
           Demo.tmpName Demo.prepared Demo.launched
           launched_ok silent_log_never_ready).
Defined.

Lemma dead_hub_polled_to_ceiling_witness :
  launch (Demo.env Demo.silentLog 0) Demo.somePaths Demo.tmpName Demo.prepared
  = Return tt Demo.launched
  /\ orchCmd Demo.launched = Some (hubCmd Demo.somePaths Demo.tmpName 4242)
  /\ (forall k, exitedBy (Demo.env Demo.silentLog 0) 4242 k = true)
  /\ (forall k, k < 30 ->
        Count (logAt (Demo.env Demo.silentLog 0) (logReads Demo.launched + k))
          marker < 2)
  /\ exists s',
       awaitReady (Demo.env Demo.silentLog 0) Demo.somePaths Demo.launched
       = Exited 1 s'
       /\ trace s' = trace Demo.launched ++ repeat (Sleep 500) 30
       /\ stderr s'
          = stderr Demo.launched
            ++ [fatalLine ("orchestrator did not become ready in 15 seconds. Check "
                           +:+ logFile Demo.somePaths)].
Proof.
  assert (Hc : orchCmd Demo.launched
               = Some (hubCmd Demo.somePaths Demo.tmpName 4242))
    by (vm_compute; reflexivity).
  assert (Hd : forall k, exitedBy (Demo.env Demo.silentLog 0) 4242 k = true)
    by (intros k; reflexivity).
  split; [exact launched_ok|]. split; [exact Hc|]. split; [exact Hd|].
  split; [exact silent_log_never_ready|].
  exact (dead_hub_polled_to_ceiling (Demo.env Demo.silentLog 0) Demo.somePaths
           Demo.tmpName Demo.prepared Demo.launched 4242
           launched_ok Hc Hd silent_log_never_ready).
Defined.

Lemma exit_skips_shutdown_witness :
  launch (Demo.env Demo.silentLog 0) Demo.somePaths Demo.tmpName Demo.prepared
  = Return tt Demo.launched
  /\ supervise (Demo.env Demo.silentLog 0) Demo.somePaths Demo.launched
     = Exited 1 Demo.timedOut
  /\ files Demo.timedOut = files Demo.launched
  /\ DeferCleanup Demo.tmpName ∈ defers Demo.timedOut
  /\ exists evs, trace Demo.timedOut = trace Demo.launched ++ evs
                 /\ Forall waitsOrStarts evs.
Proof.
  assert (Hrun : supervise (Demo.env Demo.silentLog 0) Demo.somePaths
                   Demo.launched = Exited 1 Demo.timedOut)
    by (vm_compute; reflexivity).
  split; [exact launched_ok|]. split; [exact Hrun|].
  exact (exit_skips_shutdown (Demo.env Demo.silentLog 0) Demo.somePaths
           Demo.tmpName Demo.prepared Demo.launched Demo.timedOut 1
           launched_ok Hrun).
Defined.

Lemma signal_cleanup_keeps_pid_file_witness :
  launch (Demo.env Demo.silentLog 0) Demo.somePaths Demo.tmpName Demo.prepared
  = Return tt Demo.launched
  /\ files Demo.launched !! pidFileOf (Demo.env Demo.silentLog 0) Demo.somePaths
     = Some (File "4242")
  /\ pidFileOf (Demo.env Demo.silentLog 0) Demo.somePaths <> Demo.tmpName
  /\ exists pid s1 s2,
       onSignal Demo.tmpName Demo.launched = Exited 0 s1
       /\ trace s1 = trace Demo.launched ++ shutdownEvents pid
       /\ ~ (exists data, files s1 !! Demo.tmpName = Some (File data))
       /\ files s1 !! pidFileOf (Demo.env Demo.silentLog 0) Demo.somePaths
          = Some (File "4242")
       /\ cleanup Demo.tmpName s1 = Return tt s2
       /\ files s2 = files s1 /\ stderr s2 = stderr Demo.launched.
Proof.
  assert (Hpid : files Demo.launched
                   !! pidFileOf (Demo.env Demo.silentLog 0) Demo.somePaths
                 = Some (File "4242")) by (vm_compute; reflexivity).
  assert (Hne : pidFileOf (Demo.env Demo.silentLog 0) Demo.somePaths
                <> Demo.tmpName) by (vm_compute; discriminate).
  split; [exact launched_ok|]. split; [exact Hpid|]. split; [exact Hne|].
  exact (signal_cleanup_keeps_pid_file (Demo.env Demo.silentLog 0)
           Demo.somePaths Demo.tmpName Demo.prepared Demo.launched "4242"
           launched_ok Hpid Hne).
Defined.

(** The whole run at that input: [RunServe] ends with status 1, the hub
    started and never killed, the temporary configuration and the pid file
    on disk. *)
Example timeout_run :
  RunServe (Demo.env Demo.silentLog 0) [] (Demo.boot [])
  = Exited 1 Demo.timedOut
  /\ kills (trace Demo.timedOut) = 0
  /\ Started "/opt/orchestra/orchestrator" ["--config"; Demo.tmpName] 4242
     ∈ trace Demo.timedOut
  /\ files Demo.timedOut !! Demo.tmpName
     = Some (File "listen_addr: localhost:0")
  /\ files Demo.timedOut !! "/w/.orchestra-mcp.pid" = Some (File "4242").
Proof.
  split; [vm_compute; reflexivity|]. split; [vm_compute; reflexivity|].
  split; [|split; vm_compute; reflexivity].
  apply list_elem_of_In. vm_compute. tauto.
Qed.

(** A run that ends normally, for comparison: the hub is killed once and
    neither file is left. *)
Example normal_run :
  RunServe (Demo.env Demo.readyLog 0) [] (Demo.boot [])
  = Return tt (Demo.endOf (Demo.env Demo.readyLog 0) (Demo.boot []))
  /\ kills (trace (Demo.endOf (Demo.env Demo.readyLog 0) (Demo.boot []))) = 1
  /\ files (Demo.endOf (Demo.env Demo.readyLog 0) (Demo.boot []))
     !! Demo.tmpName = None
  /\ files (Demo.endOf (Demo.env Demo.readyLog 0) (Demo.boot []))
     !! "/w/.orchestra-mcp.pid" = None.
Proof.
  split; [vm_compute; reflexivity|]. split; [vm_compute; reflexivity|].
  split; vm_compute; reflexivity.
Qed.

(** A transport that exits with status 3: the supervisor exits with it,
    the hub still running and both files left. *)
Example transport_exit_run :
  RunServe (Demo.env Demo.readyLog 3) [] (Demo.boot [])
  = Exited 3 (Demo.endOf (Demo.env Demo.readyLog 3) (Demo.boot []))
  /\ kills (trace (Demo.endOf (Demo.env Demo.readyLog 3) (Demo.boot []))) = 0
  /\ files (Demo.endOf (Demo.env Demo.readyLog 3) (Demo.boot []))
     !! Demo.tmpName = Some (File "listen_addr: localhost:0")
  /\ files (Demo.endOf (Demo.env Demo.readyLog 3) (Demo.boot []))
     !! "/w/.orchestra-mcp.pid" = Some (File "4242").
Proof.
  split; [vm_compute; reflexivity|]. split; [vm_compute; reflexivity|].
  split; vm_compute; reflexivity.
Qed.

(** The log of the demonstration has its only match after the two marker
    lines. *)
Lemma readyLog_occurs :
  occursAt (Demo.readyLog 0) (Demo.bootedLine +:+ Demo.bootedLine)
    "127.0.0.1:54321" nl.
Proof. repeat split. discriminate. Defined.

Lemma readyLog_first :
  firstMatch (Demo.readyLog 0) (Demo.bootedLine +:+ Demo.bootedLine).
Proof. apply firstMatch_check. vm_compute. reflexivity. Defined.

(** A log with two matches: the address a plugin announces starts first,
    that of the hub follows on a later line. *)
Lemma twoAddressLog_occurs :
  occursAt (Demo.twoAddressLog 0) Demo.bootedLine "10.0.0.1:7000"
    (nl +:+ Demo.bootedLine +:+ "listening on 127.0.0.1:54321" +:+ nl).
Proof. repeat split. discriminate. Defined.

Lemma twoAddressLog_later :
  occursAt (Demo.twoAddressLog 0)
    (Demo.bootedLine +:+ "listening on 10.0.0.1:7000" +:+ nl
     +:+ Demo.bootedLine)
    "127.0.0.1:54321" nl.
Proof. repeat split. discriminate. Defined.

Lemma twoAddressLog_first : firstMatch (Demo.twoAddressLog 0) Demo.bootedLine.
Proof. apply firstMatch_check. vm_compute. reflexivity. Defined.

Lemma first_address_goes_to_transport_witness :
  occursAt (logAt (Demo.env Demo.twoAddressLog 0) (logReads (Demo.boot [])))
    Demo.bootedLine "10.0.0.1:7000"
    (nl +:+ Demo.bootedLine +:+ "listening on 127.0.0.1:54321" +:+ nl)
  /\ occursAt (logAt (Demo.env Demo.twoAddressLog 0)
                 (logReads (Demo.boot [])))
       (Demo.bootedLine +:+ "listening on 10.0.0.1:7000" +:+ nl
        +:+ Demo.bootedLine)
       "127.0.0.1:54321" nl
  /\ firstMatch (logAt (Demo.env Demo.twoAddressLog 0)
                   (logReads (Demo.boot [])))
       Demo.bootedLine
  /\ handOff (Demo.env Demo.twoAddressLog 0) Demo.somePaths (Demo.boot [])
     = runTransport (Demo.env Demo.twoAddressLog 0) Demo.somePaths
         "10.0.0.1:7000" (tickLog (Demo.boot []))
  /\ trace (finalState (handOff (Demo.env Demo.twoAddressLog 0)
                          Demo.somePaths (Demo.boot [])))
     = trace (Demo.boot [])
       ++ [Started (binsAt (bins Demo.somePaths) "transport-stdio")
             ["--orchestrator-addr=" +:+ "10.0.0.1:7000";
              "--certs-dir=" +:+ absCertsDir Demo.somePaths] 4243].
Proof.
  split; [exact twoAddressLog_occurs|]. split; [exact twoAddressLog_later|].
  split; [exact twoAddressLog_first|].
  destruct (first_address_goes_to_transport (Demo.env Demo.twoAddressLog 0)
              Demo.somePaths (Demo.boot []) _ _ _
              twoAddressLog_occurs twoAddressLog_first) as [H1 H2].
  split; [exact H1|]. apply H2. reflexivity.
Defined.

Lemma silentLog_noMatch : noMatch (Demo.silentLog 0).
Proof. apply noMatch_check. reflexivity. Defined.

Lemma address_extracted_or_fatal_witness :
  (occursAt (logAt (Demo.env Demo.readyLog 0) (logReads (Demo.boot [])))
     (Demo.bootedLine +:+ Demo.bootedLine) "127.0.0.1:54321" nl
   /\ firstMatch (logAt (Demo.env Demo.readyLog 0) (logReads (Demo.boot [])))
        (Demo.bootedLine +:+ Demo.bootedLine)
   /\ handOff (Demo.env Demo.readyLog 0) Demo.somePaths (Demo.boot [])
      = runTransport (Demo.env Demo.readyLog 0) Demo.somePaths
          "127.0.0.1:54321" (tickLog (Demo.boot [])))
  /\ (noMatch (logAt (Demo.env Demo.silentLog 0) (logReads (Demo.boot [])))
      /\ handOff (Demo.env Demo.silentLog 0) Demo.somePaths (Demo.boot [])
         = Exited 1 (addStderr
                       (fatalLine ("could not determine orchestrator address. Check "
                                   +:+ logFile Demo.somePaths))
                       (tickLog (Demo.boot [])))).
Proof.
  split.
  - split; [exact readyLog_occurs|]. split; [exact readyLog_first|].
    destruct (address_extracted_or_fatal (Demo.env Demo.readyLog 0)
                Demo.somePaths (Demo.boot [])) as [H _].
    exact (proj1 (H _ _ readyLog_occurs readyLog_first)).
  - split; [exact silentLog_noMatch|].
    destruct (address_extracted_or_fatal (Demo.env Demo.silentLog 0)
                Demo.somePaths (Demo.boot [])) as [_ H].
    exact (proj1 (H silentLog_noMatch)).
Defined.

(** C5 as the claim has it fails: a log can contain the line
    [listening on 127.0.0.1:54321], on a line of its own, and the transport
    be given another address, that of an earlier match. *)
Lemma address_of_later_line_counterexample :
  Demo.twoAddressLog 0
  = (Demo.bootedLine +:+ "listening on 10.0.0.1:7000" +:+ nl
     +:+ Demo.bootedLine)
    +:+ "listening on 127.0.0.1:54321" +:+ nl
  /\ handOff (Demo.env Demo.twoAddressLog 0) Demo.somePaths (Demo.boot [])
     = runTransport (Demo.env Demo.twoAddressLog 0) Demo.somePaths
         "10.0.0.1:7000" (tickLog (Demo.boot []))
  /\ trace (finalState (handOff (Demo.env Demo.twoAddressLog 0) Demo.somePaths
                          (Demo.boot [])))
     = [Started "/opt/orchestra/transport-stdio"
          ["--orchestrator-addr=10.0.0.1:7000";
           "--certs-dir=/home/u/.orchestra/certs"] 4243]
  /\ ~ (handOff (Demo.env Demo.twoAddressLog 0) Demo.somePaths (Demo.boot [])
        = runTransport (Demo.env Demo.twoAddressLog 0) Demo.somePaths
            "127.0.0.1:54321" (tickLog (Demo.boot []))).
Proof.
  split; [reflexivity|]. split; [reflexivity|]. split; [reflexivity|].
  intros H. apply (f_equal (fun r => trace (finalState r))) in H.
  vm_compute in H. discriminate H.
Qed.

(** The example of the specification: one address line between other
    lines. *)
Example address_example :
  addrRe_FindStringSubmatch
    ("starting" +:+ nl +:+ "listening on 127.0.0.1:54321" +:+ nl +:+ "done")
  = ["listening on 127.0.0.1:54321"; "127.0.0.1:54321"].
Proof. reflexivity. Qed.

(** [strings.Count] counts instances that do not overlap. *)
Example count_example :
  Count ("a registered and booted" +:+ nl +:+ "b registered and booted") marker
  = 2
  /\ Count "aaaa" "aa" = 2 /\ Count "registered and boot" marker = 0.
Proof. repeat split. Qed.

(** * Further properties *)

(** ** update.go: versions *)

Section Versions.

Lemma strLess_irrefl (a : string) : strLess a a = false.
Proof.
  induction a as [|x a IH]; [reflexivity|].
  simpl. rewrite Nat.ltb_irrefl. exact IH.
Qed.

Lemma strLess_asym (a b : string) : strLess a b = true -> strLess b a = false.
Proof.
  revert b. induction a as [|x a IH]; intros [|y b] H; simpl in *;
    try reflexivity; try discriminate.
  destruct (Nat.ltb_spec (nat_of_ascii x) (nat_of_ascii y)) as [Hxy|Hxy].
  - destruct (Nat.ltb_spec (nat_of_ascii y) (nat_of_ascii x)); [lia|].
    reflexivity.
  - destruct (Nat.ltb_spec (nat_of_ascii y) (nat_of_ascii x)); [discriminate|].
    apply IH, H.
Qed.

Lemma strLess_trans (a b c : string) :
  strLess a b = true -> strLess b c = true -> strLess a c = true.
Proof.
  revert b c. induction a as [|x a IH]; intros [|y b] [|z c] Hab Hbc;
    simpl in *; try reflexivity; try discriminate.
  destruct (Nat.ltb_spec (nat_of_ascii x) (nat_of_ascii y)) as [Hxy|Hxy];
    destruct (Nat.ltb_spec (nat_of_ascii y) (nat_of_ascii z)) as [Hyz|Hyz];
    destruct (Nat.ltb_spec (nat_of_ascii x) (nat_of_ascii z)) as [Hxz|Hxz];
    try reflexivity; try lia;
    destruct (Nat.ltb_spec (nat_of_ascii y) (nat_of_ascii x));
    destruct (Nat.ltb_spec (nat_of_ascii z) (nat_of_ascii y));
    destruct (Nat.ltb_spec (nat_of_ascii z) (nat_of_ascii x));
    try discriminate; try lia.
  eapply IH; eassumption.
Qed.

Lemma compareParts_refl (l : list Z) : compareParts l l = None.
Proof.
  induction l as [|x l IH]; [reflexivity|].
  simpl. rewrite Z.ltb_irrefl. exact IH.
Qed.

Lemma compareParts_None (a b : list Z) :
  length a = length b -> compareParts a b = None -> a = b.
Proof.
  revert b. induction a as [|x a IH]; intros [|y b] Hlen H; simpl in *;
    try reflexivity; try discriminate.
  destruct (Z.ltb_spec x y); [discriminate|].
  destruct (Z.ltb_spec y x); [discriminate|].
  f_equal; [lia|]. apply IH; [lia | exact H].
Qed.

Lemma compareParts_flip (a b : list Z) :
  compareParts b a = match compareParts a b with
                     | Some r => Some (negb r)
                     | None => None
                     end.
Proof.
  revert b. induction a as [|x a IH]; intros [|y b]; simpl; try reflexivity.
  destruct (Z.ltb_spec x y); destruct (Z.ltb_spec y x);
    try reflexivity; try lia.
  apply IH.
Qed.

Lemma compareParts_trans (a b c : list Z) :
  length a = length b -> length b = length c ->
  compareParts a b = Some true -> compareParts b c = Some true ->
  compareParts a c = Some true.
Proof.
  revert b c. induction a as [|x a IH]; intros [|y b] [|z c] H1 H2 Hab Hbc;
    simpl in *; try discriminate.
  destruct (Z.ltb_spec x y); destruct (Z.ltb_spec y z);
    destruct (Z.ltb_spec x z); try reflexivity; try lia;
    destruct (Z.ltb_spec y x); destruct (Z.ltb_spec z y);
    destruct (Z.ltb_spec z x); try discriminate; try lia.
  apply (IH b c); auto.
Qed.

Lemma parseSemver_length (base : string) : length (parseSemver base) = 3.
Proof.
  unfold parseSemver. rewrite length_take, length_app.
  change (length [0; 0; 0]%Z) with 3. lia.
Qed.

Lemma isNewerVersion_unfold (current latest : string) :
  isNewerVersion current latest
  = match compareParts (parseSemver (splitVersion current).1)
            (parseSemver (splitVersion latest).1) with
    | Some b => b
    | None => preNewer (splitVersion current).2 (splitVersion latest).2
    end.
Proof.
  unfold isNewerVersion.
  destruct (splitVersion current), (splitVersion latest). reflexivity.
Qed.

Lemma preNewer_irrefl (p : string) : preNewer p p = false.
Proof.
  unfold preNewer. destruct (isEmpty p); simpl; apply strLess_irrefl.
Qed.

Lemma isEmpty_spec (s : string) : isEmpty s = true <-> s = "".
Proof. apply String.eqb_eq. Qed.

Lemma strLess_nil_r (a : string) : strLess a "" = false.
Proof. destruct a; reflexivity. Qed.

Lemma preNewer_asym (p q : string) : preNewer p q = true -> preNewer q p = false.
Proof.
  unfold preNewer.
  destruct (isEmpty p) eqn:Hp, (isEmpty q) eqn:Hq; simpl; intros H;
    try discriminate; try reflexivity;
    repeat match goal with
           | H : isEmpty ?x = true |- _ => apply isEmpty_spec in H; subst x
           end;
    try (rewrite ?strLess_nil_r in *; discriminate);
    try (apply strLess_asym; assumption).
Qed.

Lemma preNewer_trans (p q r : string) :
  preNewer p q = true -> preNewer q r = true -> preNewer p r = true.
Proof.
  unfold preNewer.
  destruct (isEmpty p) eqn:Hp, (isEmpty q) eqn:Hq, (isEmpty r) eqn:Hr; simpl;
    intros H1 H2; try discriminate; try reflexivity;
    repeat match goal with
           | H : isEmpty ?x = true |- _ => apply isEmpty_spec in H; subst x
           end;
    try (rewrite ?strLess_nil_r in *; discriminate);
    try (eapply strLess_trans; eassumption).
Qed.

(** X1: no version is newer than itself, and of two versions at most one
    is newer than the other. *)
Theorem isNewerVersion_asymmetric (a b : string) :
  isNewerVersion a a = false
  /\ (isNewerVersion a b = true -> isNewerVersion b a = false).
Proof.
  split.
  - rewrite isNewerVersion_unfold, compareParts_refl. apply preNewer_irrefl.
  - rewrite !isNewerVersion_unfold.
    rewrite (compareParts_flip (parseSemver (splitVersion a).1)).
    destruct (compareParts _ _) as [[|]|]; simpl; try discriminate; auto.
    apply preNewer_asym.
Qed.

Lemma isNewerVersion_asymmetric_witness :
  isNewerVersion "v1.2.0-beta" "v1.10.0" = true
  /\ isNewerVersion "v1.10.0" "v1.2.0-beta" = false.
Proof.
  assert (H : isNewerVersion "v1.2.0-beta" "v1.10.0" = true) by reflexivity.
  split; [exact H|].
  exact (proj2 (isNewerVersion_asymmetric "v1.2.0-beta" "v1.10.0") H).
Defined.

(** X2: being newer is transitive. *)
Theorem isNewerVersion_transitive (a b c : string) :
  isNewerVersion a b = true -> isNewerVersion b c = true ->
  isNewerVersion a c = true.
Proof.
  rewrite !isNewerVersion_unfold.
  pose proof (parseSemver_length (splitVersion a).1) as La.
  pose proof (parseSemver_length (splitVersion b).1) as Lb.
  pose proof (parseSemver_length (splitVersion c).1) as Lc.
  destruct (compareParts (parseSemver (splitVersion a).1)
              (parseSemver (splitVersion b).1)) as [[|]|] eqn:Hab;
    try discriminate; intros Hp;
    destruct (compareParts (parseSemver (splitVersion b).1)
                (parseSemver (splitVersion c).1)) as [[|]|] eqn:Hbc;
    try discriminate; intros Hq.
  - rewrite (compareParts_trans _ _ _ (eq_trans La (eq_sym Lb))
               (eq_trans Lb (eq_sym Lc)) Hab Hbc).
    reflexivity.
  - apply compareParts_None in Hbc; [|lia]. rewrite <- Hbc, Hab. reflexivity.
  - apply compareParts_None in Hab; [|lia]. rewrite Hab, Hbc. reflexivity.
  - apply compareParts_None in Hab; [|lia]. rewrite Hab, Hbc.
    eapply preNewer_trans; eassumption.
Qed.

Lemma isNewerVersion_transitive_witness :
  isNewerVersion "v0.9.9" "v0.10.0-rc1" = true
  /\ isNewerVersion "v0.10.0-rc1" "v0.10.0" = true
  /\ isNewerVersion "v0.9.9" "v0.10.0" = true.
Proof.
  assert (H1 : isNewerVersion "v0.9.9" "v0.10.0-rc1" = true) by reflexivity.
  assert (H2 : isNewerVersion "v0.10.0-rc1" "v0.10.0" = true) by reflexivity.
  split; [exact H1|]. split; [exact H2|].
  exact (isNewerVersion_transitive _ _ _ H1 H2).
Defined.

End Versions.

(** ** Cutting strings at a byte *)

Section Cuts.

Lemma cutFirst_app (c : ascii) (a r : string) :
  hasByte c a = false -> cutFirst c (a +:+ String c r) = Some (a, r).
Proof.
  induction a as [|x a IH]; intros H.
  - rewrite append_nil. simpl. rewrite Ascii.eqb_refl. reflexivity.
  - rewrite append_cons. simpl in *. apply orb_false_elim in H as [Hx Ha].
    rewrite Hx, (IH Ha). reflexivity.
Qed.

Lemma cutFirst_None (c : ascii) (s : string) :
  hasByte c s = false -> cutFirst c s = None.
Proof.
  induction s as [|x s IH]; intros H; [reflexivity|].
  simpl in *. apply orb_false_elim in H as [Hx Hs].
  rewrite Hx, (IH Hs). reflexivity.
Qed.

Lemma cutLast_None (c : ascii) (s : string) :
  hasByte c s = false -> cutLast c s = None.
Proof.
  induction s as [|x s IH]; intros H; [reflexivity|].
  simpl in *. apply orb_false_elim in H as [Hx Hs].
  rewrite (IH Hs), Hx. reflexivity.
Qed.

Lemma cutLast_Some (c : ascii) (s before after : string) :
  cutLast c s = Some (before, after) ->
  s = before +:+ String c after /\ hasByte c after = false.
Proof.
  revert before. induction s as [|x s IH]; intros before H; [discriminate|].
  simpl in H. destruct (cutLast c s) as [[b a]|] eqn:Hs.
  - injection H as <- <-. destruct (IH b eq_refl) as [-> Hno].
    rewrite append_cons. auto.
  - destruct (Ascii.eqb_spec x c) as [->|]; [|discriminate].
    injection H as <- <-. rewrite append_nil. split; [reflexivity|].
    clear IH. induction s as [|y s IHs]; [reflexivity|].
    simpl in *. destruct (cutLast c s) as [[b a]|]; [discriminate|].
    destruct (Ascii.eqb y c); [discriminate|]. simpl. apply IHs. reflexivity.
Qed.

Lemma cutLast_app (c : ascii) (before after : string) :
  hasByte c after = false ->
  cutLast c (before +:+ String c after) = Some (before, after).
Proof.
  intros H. induction before as [|x b IH].
  - rewrite append_nil. simpl. rewrite (cutLast_None _ _ H), Ascii.eqb_refl.
    reflexivity.
  - rewrite append_cons. simpl. rewrite IH. reflexivity.
Qed.

Lemma hasByte_cutLast (c : ascii) (s : string) :
  hasByte c s = true -> exists before after, cutLast c s = Some (before, after).
Proof.
  induction s as [|x s IH]; intros H; [discriminate|].
  simpl in *. destruct (cutLast c s) as [[b a]|] eqn:Hs; [eauto|].
  destruct (Ascii.eqb x c); [eauto|]. simpl in H.
  destruct (IH H) as (b & a & Hba). discriminate.
Qed.

End Cuts.

(** ** install.go: [parseRepoVersion] *)

(** X3: a repository and a version without [@], joined by [@], are split
    again into the two, also when the repository itself contains [@]; a
    trailing [@] gives the empty version. *)
Theorem parseRepoVersion_joined (repo version : string) :
  hasByte atSign version = false ->
  parseRepoVersion (repo +:+ "@" +:+ version) = (repo, version).
Proof.
  intros H. unfold parseRepoVersion.
  change ("@" +:+ version) with (String atSign version).
  rewrite (cutLast_app _ _ _ H). reflexivity.
Qed.

Lemma parseRepoVersion_joined_witness :
  hasByte atSign "v1.2.0" = false
  /\ parseRepoVersion ("git@github.com/foo/bar" +:+ "@" +:+ "v1.2.0")
     = ("git@github.com/foo/bar", "v1.2.0").
Proof.
  assert (H : hasByte atSign "v1.2.0" = false) by reflexivity.
  split; [exact H|].
  exact (parseRepoVersion_joined "git@github.com/foo/bar" "v1.2.0" H).
Defined.

(** X4: whatever the argument, the version [parseRepoVersion] returns has
    no [@]; an argument without [@] is the repository, with the empty
    version, and any other argument is the repository, an [@] and the
    version. *)
Theorem parseRepoVersion_parts (s : string) :
  hasByte atSign (parseRepoVersion s).2 = false
  /\ (if hasByte atSign s
      then s = (parseRepoVersion s).1 +:+ "@" +:+ (parseRepoVersion s).2
      else parseRepoVersion s = (s, "")).
Proof.
  unfold parseRepoVersion.
  destruct (hasByte atSign s) eqn:Hs.
  - destruct (hasByte_cutLast _ _ Hs) as (b & a & Hcut). rewrite Hcut.
    destruct (cutLast_Some _ _ _ _ Hcut) as [-> Hno]. simpl. auto.
  - rewrite (cutLast_None _ _ Hs). simpl. auto.
Qed.

(** ** update.go: prereleases and the update check *)

Lemma TrimPrefix_v_app (base rest : string) :
  TrimPrefix (base +:+ "-" +:+ rest) "v" = TrimPrefix base "v" +:+ "-" +:+ rest.
Proof.
  destruct base as [|c base]; [reflexivity|].
  rewrite append_cons. unfold TrimPrefix. cbn [stripPrefix].
  destruct (Ascii.eqb "v" c); reflexivity.
Qed.

Lemma splitVersion_prerelease (base pre : string) :
  hasByte "-" (TrimPrefix base "v") = false ->
  splitVersion (base +:+ "-" +:+ pre) = (TrimPrefix base "v", pre)
  /\ splitVersion base = (TrimPrefix base "v", "").
Proof.
  intros H. unfold splitVersion. rewrite TrimPrefix_v_app.
  change ("-" +:+ pre) with (String "-" pre).
  rewrite (cutFirst_app _ _ _ H), (cutFirst_None _ _ H). auto.
Qed.

(** X5: a release is newer than each of its prereleases, and none of them
    is newer than the release: for a version [base] without [-] and a
    non-empty suffix, [base] is newer than [base-suffix] and not the other
    way round. *)
Theorem release_newer_than_prerelease (base pre : string) :
  hasByte "-" (TrimPrefix base "v") = false -> pre <> "" ->
  isNewerVersion (base +:+ "-" +:+ pre) base = true
  /\ isNewerVersion base (base +:+ "-" +:+ pre) = false.
Proof.
  intros H Hpre. destruct (splitVersion_prerelease base pre H) as [H1 H2].
  rewrite !isNewerVersion_unfold, H1, H2. simpl.
  rewrite compareParts_refl. unfold preNewer.
  assert (He : isEmpty pre = false).
  { apply not_true_is_false. intros He. apply isEmpty_spec in He. auto. }
  rewrite He. auto.
Qed.

Lemma release_newer_than_prerelease_witness :
  hasByte "-" (TrimPrefix "v0.0.3" "v") = false /\ "beta" <> ""
  /\ isNewerVersion ("v0.0.3" +:+ "-" +:+ "beta") "v0.0.3" = true
  /\ isNewerVersion "v0.0.3" ("v0.0.3" +:+ "-" +:+ "beta") = false.
Proof.
  assert (H1 : hasByte "-" (TrimPrefix "v0.0.3" "v") = false) by reflexivity.
  assert (H2 : "beta" <> "") by discriminate.
  split; [exact H1|]. split; [exact H2|].
  exact (release_newer_than_prerelease "v0.0.3" "beta" H1 H2).
Defined.

Lemma splitVersion_v (a : string) :
  HasPrefix a "v" = false -> splitVersion ("v" +:+ a) = splitVersion a.
Proof.
  intros H. unfold splitVersion.
  assert (Ht : TrimPrefix a "v" = a).
  { unfold TrimPrefix. unfold HasPrefix in H.
    destruct (stripPrefix "v" a); [discriminate | reflexivity]. }
  rewrite Ht. reflexivity.
Qed.

(** X6: one leading [v] makes no difference: for versions that do not
    start with [v], putting a [v] before either or both does not change
    the comparison. *)
Theorem leading_v_ignored (a b : string) :
  HasPrefix a "v" = false -> HasPrefix b "v" = false ->
  isNewerVersion ("v" +:+ a) ("v" +:+ b) = isNewerVersion a b
  /\ isNewerVersion ("v" +:+ a) b = isNewerVersion a b
  /\ isNewerVersion a ("v" +:+ b) = isNewerVersion a b.
Proof.
  intros Ha Hb. rewrite !isNewerVersion_unfold.
  rewrite (splitVersion_v a Ha), (splitVersion_v b Hb). auto.
Qed.

Lemma leading_v_ignored_witness :
  HasPrefix "1.4.0" "v" = false /\ HasPrefix "1.10.0-rc1" "v" = false
  /\ isNewerVersion ("v" +:+ "1.4.0") ("v" +:+ "1.10.0-rc1")
     = isNewerVersion "1.4.0" "1.10.0-rc1"
  /\ isNewerVersion ("v" +:+ "1.4.0") "1.10.0-rc1"
     = isNewerVersion "1.4.0" "1.10.0-rc1"
  /\ isNewerVersion "1.4.0" ("v" +:+ "1.10.0-rc1")
     = isNewerVersion "1.4.0" "1.10.0-rc1".
Proof.
  assert (H1 : HasPrefix "1.4.0" "v" = false) by reflexivity.
  assert (H2 : HasPrefix "1.10.0-rc1" "v" = false) by reflexivity.
  split; [exact H1|]. split; [exact H2|].
  exact (leading_v_ignored "1.4.0" "1.10.0-rc1" H1 H2).
Defined.

Lemma isNewerVersion_self (v : string) : isNewerVersion v v = false.
Proof.
  rewrite isNewerVersion_unfold, compareParts_refl. apply preNewer_irrefl.
Qed.

(** X7: when the newest release carries the tag of the running build,
    whatever that tag looks like, [runSelfUpdate] reports that the
    program is up to date and returns; the download step is not run. *)
Theorem self_update_same_tag (Version : string)
    (selfUpdate : string -> M (option error)) (s : State) :
  Version <> "" ->
  runSelfUpdate Version Version selfUpdate s
  = Return tt
      (addStderr ("Orchestra is up to date (" +:+ Version +:+ ")" +:+ nl)
         (addStderr ("Checking for updates..." +:+ nl) s)).
Proof.
  intros Hv. unfold runSelfUpdate. rewrite bind_run. simpl.
  assert (He : isEmpty Version = false).
  { apply not_true_is_false. intros He. apply isEmpty_spec in He. auto. }
  rewrite He, isNewerVersion_self.
  reflexivity.
Qed.

Lemma self_update_same_tag_witness :
  "v0.4.2-beta" <> ""
  /\ runSelfUpdate "v0.4.2-beta" "v0.4.2-beta"
       (fun _ => ret None) (Demo.boot [])
     = Return tt
         (addStderr ("Orchestra is up to date (" +:+ "v0.4.2-beta" +:+ ")" +:+ nl)
            (addStderr ("Checking for updates..." +:+ nl) (Demo.boot []))).
Proof.
  assert (H : "v0.4.2-beta" <> "") by discriminate.
  split; [exact H|].
  exact (self_update_same_tag "v0.4.2-beta" _ (Demo.boot []) H).
Defined.

(** ** main.go: when [serve] runs *)

Lemma oneOf_In (a : string) (l : list string) : oneOf a l = true <-> a ∈ l.
Proof.
  split; [apply oneOf_true|].
  intros H. unfold oneOf. apply existsb_exists. exists a.
  split; [apply list_elem_of_In, H | apply String.eqb_refl].
Qed.

(** X8: [main] calls [RunServe] with arguments [a] exactly when no
    argument is given ([a] empty), when the first argument is [serve] or
    [start] ([a] the arguments after it), or when the first argument is
    none of the subcommands ([a] all the arguments, the first included). *)
Theorem main_serves_iff (prog : string) (args a : list string) :
  main (prog :: args) = Some (CallRunServe a)
  <-> (args = [] /\ a = [])
      \/ (exists c rest,
            args = c :: rest
            /\ ((c ∈ ["serve"; "start"] /\ a = rest)
                \/ ((c ∉ subcommands) /\ a = args))).
Proof.
  destruct args as [|c rest].
  - simpl. split.
    + intros H. injection H as <-. auto.
    + intros [[_ ->] | (c & rest & H & _)]; [reflexivity | discriminate].
  - unfold main. split.
    + intros H. right. exists c, rest. split; [reflexivity|].
      destruct (oneOf c ["init"]) eqn:H1; [discriminate|].
      destruct (oneOf c ["serve"; "start"]) eqn:H2.
      { injection H as <-. left. split; [apply oneOf_In, H2 | reflexivity]. }
      destruct (oneOf c ["install"]) eqn:H3; [discriminate|].
      destruct (oneOf c ["plugins"]) eqn:H4; [discriminate|].
      destruct (oneOf c ["uninstall"; "remove"]) eqn:H5; [discriminate|].
      destruct (oneOf c ["update"; "upgrade"]) eqn:H6; [discriminate|].
      destruct (oneOf c ["version"; "--version"; "-v"]) eqn:H7; [discriminate|].
      destruct (oneOf c ["help"; "--help"; "-h"]) eqn:H8; [discriminate|].
      injection H as <-. right. split; [|reflexivity].
      intros Hin. unfold subcommands in Hin.
      unfold oneOf in *. simpl in *.
      repeat (apply elem_of_cons in Hin as [->|Hin];
              [simpl in *; discriminate|]).
      apply elem_of_nil in Hin. exact Hin.
    + intros [[H _] | (c' & rest' & H & Hc)]; [discriminate|].
      injection H as <- <-. destruct Hc as [[Hc ->] | [Hc ->]].
      * assert (H1 : oneOf c ["init"] = false).
        { apply not_true_is_false. intros H1. apply oneOf_In in H1.
          apply list_elem_of_singleton in H1. subst c.
          repeat (apply elem_of_cons in Hc as [Hc|Hc]; [discriminate|]).
          apply elem_of_nil in Hc. exact Hc. }
        apply oneOf_In in Hc. rewrite H1, Hc. reflexivity.
      * rewrite !(oneOf_false c) by (exact Hc || reflexivity). reflexivity.
Qed.

(** ** serve.go: what the address pattern yields *)

Lemma occursAt_head_inv (c : ascii) (r a post : string) :
  occursAt (String c r) "" a post -> matchHere (String c r) = true.
Proof. apply matchHere_occurs. Qed.

Lemma occursAt_tail_inv (c d : ascii) (r pre a post : string) :
  occursAt (String c r) (String d pre) a post -> occursAt r pre a post.
Proof.
  intros (H1 & H2 & H3 & H4). rewrite append_cons in H1.
  injection H1 as _ H1. repeat split; auto.
Qed.

(** X9: the result of the match on the log is either empty, and then the
    log has no match, or the whole first match followed by its group; the
    group, which becomes the address of the transport, is not empty and
    has no white space in it. *)
Theorem address_match_sound (log : string) :
  (addrRe_FindStringSubmatch log = [] /\ noMatch log)
  \/ (exists pre a post,
        occursAt log pre a post /\ firstMatch log pre
        /\ addrRe_FindStringSubmatch log = [listening +:+ a; a]
        /\ a <> "" /\ allNonSpace a = true).
Proof.
  induction log as [|c r IH].
  - left. split; [reflexivity|]. apply noMatch_check. reflexivity.
  - cbn [addrRe_FindStringSubmatch].
    assert (Hrec :
      matchHere (String c r) = false ->
      (addrRe_FindStringSubmatch r = [] /\ noMatch (String c r))
      \/ (exists pre a post,
            occursAt (String c r) pre a post /\ firstMatch (String c r) pre
            /\ addrRe_FindStringSubmatch r = [listening +:+ a; a]
            /\ a <> "" /\ allNonSpace a = true)).
    { intros Hhere. destruct IH as [[Hnil Hno] | (pre & a & post & Ho & Hf & Hr & Ha)].
      - left. split; [exact Hnil|]. intros [|d pre] a post Ho.
        + apply occursAt_head_inv in Ho. congruence.
        + apply occursAt_tail_inv in Ho. exact (Hno _ _ _ Ho).
      - right. exists (String c pre), a, post.
        split; [apply occursAt_cons, Ho|]. split; [|tauto].
        intros [|d pre'] a' post' Ho'.
        + apply occursAt_head_inv in Ho'. congruence.
        + apply occursAt_tail_inv, Hf in Ho'. simpl. lia. }
    unfold matchHere in Hrec.
    destruct (stripPrefix listening (String c r)) as [rest|] eqn:Hs;
      [|apply Hrec; reflexivity].
    destruct (takeNonSpace rest) as [|d g] eqn:Hg; [apply Hrec; reflexivity|].
    right. exists "", (String d g), (dropNonSpace rest).
    assert (Ho : occursAt (String c r) "" (takeNonSpace rest) (dropNonSpace rest)).
    { apply head_match_occurs; [exact Hs | rewrite Hg; discriminate]. }
    rewrite Hg in Ho. split; [exact Ho|].
    split; [intros pre' a' post' _; simpl; lia|].
    split; [reflexivity|]. destruct Ho as (_ & H2 & H3 & _). auto.
Qed.

(** ** plugins.go and registry.go: the commands on the registry *)

Section Commands.

Variable E : Env.

Lemma rangeRegistry_elem (reg : registry) (k : string) (p : PluginEntry) :
  In (k, p) (rangeRegistry E reg) <-> reg !! k = Some p.
Proof.
  rewrite <- list_elem_of_In, (range_perm E reg). apply elem_of_map_to_list.
Qed.

Lemma findPlugin_Some (reg : registry) (target k : string) (p : PluginEntry) :
  findPlugin E reg target = Some (k, p) ->
  reg !! k = Some p
  /\ (k = target \/ (reg !! target = None /\ ID p = target)).
Proof.
  unfold findPlugin. destruct (reg !! target) as [q|] eqn:Ht.
  - intros H. injection H as <- <-. auto.
  - intros H. apply List.find_some in H as [Hin Hid].
    apply rangeRegistry_elem in Hin. apply String.eqb_eq in Hid. auto.
Qed.

Lemma findPlugin_None (reg : registry) (target : string) :
  findPlugin E reg target = None
  <-> reg !! target = None
      /\ forall k p, reg !! k = Some p -> ID p <> target.
Proof.
  unfold findPlugin. destruct (reg !! target) as [q|] eqn:Ht.
  - split; [discriminate | intros [H _]; discriminate].
  - split.
    + intros H. split; [reflexivity|]. intros k p Hk Hid.
      apply rangeRegistry_elem in Hk.
      pose proof (List.find_none _ _ H _ Hk) as Hf. simpl in Hf.
      apply String.eqb_neq in Hf. auto.
    + intros [_ H]. destruct (find _ _) as [[k p]|] eqn:Hf; [|reflexivity].
      apply List.find_some in Hf as [Hin Hid]. apply rangeRegistry_elem in Hin.
      apply String.eqb_eq in Hid. destruct (H k p Hin Hid).
Qed.

(** X10: the plugin a target names.  A target that is a key of the
    registry names the entry under that key, even when another entry has
    the target as its ID; otherwise it names an entry whose ID it is; it
    names nothing exactly when it is neither a key nor the ID of any
    entry. *)
Theorem findPlugin_spec (reg : registry) (target : string) :
  match findPlugin E reg target with
  | Some (k, p) =>
      reg !! k = Some p
      /\ (k = target \/ (reg !! target = None /\ ID p = target))
  | None =>
      reg !! target = None
      /\ forall k p, reg !! k = Some p -> ID p <> target
  end.
Proof.
  destruct (findPlugin E reg target) as [[k p]|] eqn:H.
  - apply findPlugin_Some, H.
  - apply findPlugin_None, H.
Qed.

Lemma forM_ext {A} (f g : A -> M unit) (l : list A) (s : State) :
  (forall x, f x = g x) -> forM_ l f s = forM_ l g s.
Proof.
  intros H. revert s. induction l as [|x l IH]; intros s; [reflexivity|].
  simpl. rewrite !bind_run, H. destruct (g x s); auto.
Qed.

(** Printing one line for each element of a list. *)
Lemma print_each {A} (f : A -> string) (l : list A) (s : State) :
  exists s',
    forM_ l (fun x => Fprintf_stderr (f x)) s = Return tt s'
    /\ stderr s' = stderr s ++ map f l
    /\ files s' = files s /\ trace s' = trace s.
Proof.
  revert s. induction l as [|x l IH]; intros s.
  - exists s. simpl. rewrite app_nil_r. auto.
  - destruct (IH (addStderr (f x) s)) as (s' & Hrun & Hs & Hf & Ht).
    exists s'. split; [exact Hrun|]. simpl in *.
    rewrite Hs, <- app_assoc. auto.
Qed.

(** X11: [plugins] changes nothing on disk and returns.  With an empty
    registry it prints one line, the hint to install; otherwise it prints
    a heading and then one line for each entry of the registry, each entry
    once. *)
Theorem plugins_lists_each_entry (args : list string) (s : State)
    (reg : registry) :
  LoadRegistry E s = Return (inr reg) s ->
  exists s' lines,
    RunPlugins E args s = Return tt s'
    /\ files s' = files s /\ trace s' = trace s
    /\ stderr s' = stderr s ++ lines
    /\ if decide (reg = ∅)
       then lines = ["No plugins installed. Run: orchestra install <github-repo>"
                     +:+ nl]
       else exists rows,
              lines = ("Installed plugins:" +:+ nl) :: rows
              /\ rows ≡ₚ map (fun kp => pluginLine kp.2) (map_to_list reg).
Proof.
  intros Hload. unfold RunPlugins. rewrite (bind_Return _ _ _ _ _ Hload).
  destruct (size reg =? 0)%nat eqn:Hsize.
  - apply Nat.eqb_eq, map_size_empty_iff in Hsize.
    destruct (decide (reg = ∅)) as [_|Hne]; [|contradiction].
    exists (addStderr
              ("No plugins installed. Run: orchestra install <github-repo>"
               +:+ nl) s),
      ["No plugins installed. Run: orchestra install <github-repo>" +:+ nl].
    split; [reflexivity|]. split; [reflexivity|]. split; [reflexivity|].
    split; reflexivity.
  - apply Nat.eqb_neq in Hsize. rewrite map_size_empty_iff in Hsize.
    destruct (decide (reg = ∅)) as [|_]; [contradiction|].
    rewrite bind_run. simpl.
    destruct (print_each (fun kp : string * PluginEntry => pluginLine kp.2)
                (rangeRegistry E reg)
                (addStderr ("Installed plugins:" +:+ nl) s))
      as (s' & Hrun & Hs & Hf & Ht).
    exists s', (("Installed plugins:" +:+ nl)
                :: map (fun kp => pluginLine kp.2) (rangeRegistry E reg)).
    split.
    + rewrite <- Hrun. apply forM_ext. intros [k p]. reflexivity.
    + repeat split; auto.
      * rewrite Hs. simpl. rewrite <- app_assoc. reflexivity.
      * eexists. split; [reflexivity|]. rewrite (range_perm E reg). reflexivity.
Qed.

(** X12: for a target that is neither a key of the registry nor the ID
    of an entry, [uninstall] and [update] end the process with status 1
    and the line "plugin not found"; they remove nothing, save nothing and
    install nothing. *)
Theorem unknown_plugin_is_fatal (s : State) (reg : registry)
    (target : string) (rest : list string) :
  LoadRegistry E s = Return (inr reg) s ->
  reg !! target = None ->
  (forall k p, reg !! k = Some p -> ID p <> target) ->
  RunUninstall E (target :: rest) s
  = Exited 1 (addStderr (fatalLine ("plugin not found: " +:+ target)) s)
  /\ RunUpdate E (target :: rest) s
     = Exited 1 (addStderr (fatalLine ("plugin not found: " +:+ target)) s).
Proof.
  intros Hload Hk Hid.
  assert (Hf : findPlugin E reg target = None)
    by (apply findPlugin_None; auto).
  unfold RunUninstall, RunUpdate.
  rewrite !(bind_Return _ _ _ _ _ Hload), Hf. split; reflexivity.
Qed.

End Commands.

Section Saving.

Variable E : Env.

(** What [LoadRegistry] returns depends on the files only. *)
Lemma LoadRegistry_files (s1 s2 : State) (r : error + registry) :
  files s1 = files s2 ->
  LoadRegistry E s1 = Return r s1 -> LoadRegistry E s2 = Return r s2.
Proof.
  unfold LoadRegistry. rewrite !bind_run. unfold os_ReadFile.
  intros <-. destruct (files s1 !! registryPath E) as [[data|]|]; simpl;
    try (intros H; injection H as <-; reflexivity).
  destruct (json_Unmarshal E data) as [err|[m|]];
    intros H; injection H as <-; reflexivity.
Qed.

Lemma LoadRegistry_valid (s : State) (data : string) (reg : registry) :
  files s !! registryPath E = Some (File data) ->
  json_Unmarshal E data = inr (Some reg) ->
  LoadRegistry E s = Return (inr reg) s.
Proof.
  intros Hf Hd. unfold LoadRegistry. rewrite bind_run. unfold os_ReadFile.
  rewrite Hf, Hd. reflexivity.
Qed.

(** A registry that could be loaded is not a directory. *)
Lemma LoadRegistry_not_dir (s : State) (reg : registry) :
  LoadRegistry E s = Return (inr reg) s ->
  files s !! registryPath E <> Some Dir.
Proof.
  unfold LoadRegistry. rewrite bind_run. unfold os_ReadFile.
  intros H Hd. rewrite Hd in H. discriminate.
Qed.

Lemma SaveRegistry_ok (s : State) (reg : registry) (data : string) :
  canWrite E (registryDir E) = true ->
  canWrite E (registryPath E) = true ->
  files s !! registryPath E <> Some Dir ->
  json_MarshalIndent E reg = inr data ->
  SaveRegistry E reg s
  = Return None (setFiles (<[registryPath E := File data]> (files s)) s).
Proof.
  intros Hd Hp Hn Hm. unfold SaveRegistry, os_MkdirAll, os_WriteFile.
  rewrite bind_run, Hd, Hm, Hp.
  destruct (files s !! registryPath E) as [[d|]|]; try reflexivity.
  congruence.
Qed.

(** X13: a registry that has been saved is the registry loaded next,
    provided the directory and the file can be written and the decoder
    reads what the encoder wrote. *)
Theorem save_then_load (s : State) (reg : registry) (data : string) :
  canWrite E (registryDir E) = true ->
  canWrite E (registryPath E) = true ->
  files s !! registryPath E <> Some Dir ->
  json_MarshalIndent E reg = inr data ->
  json_Unmarshal E data = inr (Some reg) ->
  exists s',
    SaveRegistry E reg s = Return None s'
    /\ files s' = <[registryPath E := File data]> (files s)
    /\ LoadRegistry E s' = Return (inr reg) s'.
Proof.
  intros Hd Hp Hn Hm Hu. eexists.
  split; [apply (SaveRegistry_ok s reg data Hd Hp Hn Hm)|].
  split; [reflexivity|].
  apply (LoadRegistry_valid _ data); [|exact Hu].
  simpl. apply lookup_insert_eq.
Qed.

Lemma keyedByRepo_insert (reg : registry) (p : PluginEntry) :
  keyedByRepo reg -> keyedByRepo (<[Repo p := p]> reg).
Proof.
  intros H k q Hk. destruct (decide (Repo p = k)) as [<-|Hne].
  - rewrite lookup_insert_eq in Hk. congruence.
  - rewrite lookup_insert_ne in Hk by exact Hne. apply H, Hk.
Qed.


(** X14: [install] files what it has acquired under its repository,
    replacing an entry already there and keeping every other entry: the
    registry loaded after it is the registry loaded before it with that
    one entry set.  The version filed is [latest] when none was asked for,
    the registry file is the only file the registration writes, and a
    registry whose entries are filed under their own repository stays
    so. *)
Theorem install_registers_entry (args : list string) (s0 s : State)
    (a : acquired) (reg : registry) (data : string) :
  acquire E args s0 = Return a s ->
  LoadRegistry E s = Return (inr reg) s ->
  canWrite E (registryDir E) = true ->
  canWrite E (registryPath E) = true ->
  json_MarshalIndent E (<[aRepo a := entryOf E a]> reg) = inr data ->
  json_Unmarshal E data = inr (Some (<[aRepo a := entryOf E a]> reg)) ->
  exists s',
    RunInstall E args s0 = Return tt s'
    /\ files s' = <[registryPath E := File data]> (files s)
    /\ LoadRegistry E s' = Return (inr (<[aRepo a := entryOf E a]> reg)) s'
    /\ (aVersion a = "" -> Version (entryOf E a) = "latest")
    /\ (keyedByRepo reg -> keyedByRepo (<[aRepo a := entryOf E a]> reg)).
Proof.
  intros Hacq Hload Hd Hp Hm Hu.
  pose proof (LoadRegistry_not_dir s reg Hload) as Hn.
  pose proof (SaveRegistry_ok s _ data Hd Hp Hn Hm) as Hsave.
  assert (Hrun : exists s',
    RunInstall E args s0 = Return tt s'
    /\ files s' = <[registryPath E := File data]> (files s)).
  { unfold RunInstall.
    rewrite (bind_Return _ _ _ _ _ Hacq), (bind_Return _ _ _ _ _ Hload).
    fold (entryOf E a). rewrite (bind_Return _ _ _ _ _ Hsave).
    unfold when, Fprintf_stderr, mbind, M_bind, bind, ret. simpl.
    destruct (aProvidesTools a), (aProvidesStorage a); simpl;
      eexists; split; reflexivity. }
  destruct Hrun as (s' & Hrun & Hf). exists s'.
  split; [exact Hrun|]. split; [exact Hf|]. split.
  - apply (LoadRegistry_valid _ data); [|exact Hu].
    rewrite Hf. apply lookup_insert_eq.
  - split.
    + intros Hv. unfold entryOf. simpl. rewrite Hv. reflexivity.
    + apply (keyedByRepo_insert reg (entryOf E a)).
Qed.


End Saving.

(** ** serve.go: further behaviour of the supervisor *)

Section Serving.

Variable E : Env.

(** The check of the sibling binaries stops at the first one missing. *)
Lemma check_bins_missing (bs : list (string * string)) (s : State) :
  (exists name path, (name, path) ∈ bs /\ files s !! path = None) ->
  exists name path,
    (name, path) ∈ bs /\ files s !! path = None
    /\ forM_ bs (fun '(name, path) =>
          err ← os_Stat path;
          if IsNotExist err
          then fatal ("missing binary " +:+ quote name +:+ " at " +:+ path)
          else mret tt) s
       = Exited 1
           (addStderr
              (fatalLine ("missing binary " +:+ quote name +:+ " at " +:+ path))
              s).
Proof.
  induction bs as [|[n0 p0] bs IH]; intros (name & path & Hin & Hmiss).
  - apply elem_of_nil in Hin. destruct Hin.
  - cbn [forM_]. rewrite bind_run. unfold os_Stat at 1. rewrite bind_run.
    destruct (files s !! p0) as [nd|] eqn:Hp0.
    + simpl. apply elem_of_cons in Hin as [Heq|Hin]; [congruence|].
      destruct IH as (name' & path' & Hin' & Hmiss' & Hrun); [eauto|].
      exists name', path'. split; [apply list_elem_of_further, Hin'|].
      split; [exact Hmiss' | exact Hrun].
    + exists n0, p0. split; [apply list_elem_of_here|].
      split; [exact Hp0 | reflexivity].
Qed.

(** X16: when one of the four sibling binaries is not on disk, [serve]
    ends with status 1 and a line naming a missing binary, before doing
    anything else: no process is signalled, no file is written. *)
Theorem missing_sibling_is_fatal (args : list string) (s : State)
    (fl : serveFlags) (ws self : string) :
  flag_Parse E {| workspace := "."; certsDir := defaultCertsDir E;
                  logPath := "" |} args = inr fl ->
  filepath_Abs E (workspace fl) = inr ws ->
  os_Executable E = inr self ->
  (exists name,
     name ∈ binNames
     /\ files s !! filepath_Join E
                     [filepath_Dir E (filepath_EvalSymlinks E self); name]
        = None) ->
  exists name,
    name ∈ binNames
    /\ files s !! filepath_Join E
                    [filepath_Dir E (filepath_EvalSymlinks E self); name]
       = None
    /\ RunServe E args s
       = Exited 1
           (addStderr
              (fatalLine
                 ("missing binary " +:+ quote name +:+ " at "
                  +:+ filepath_Join E
                        [filepath_Dir E (filepath_EvalSymlinks E self); name]))
              s).
Proof.
  intros Hfl Habs Hexe (name & Hin & Hmiss).
  set (dir := filepath_Dir E (filepath_EvalSymlinks E self)) in *.
  destruct (check_bins_missing (makeBins E dir) s)
    as (name' & path' & Hin' & Hmiss' & Hrun).
  { exists name, (filepath_Join E [dir; name]). split; [|exact Hmiss].
    unfold makeBins. apply list_elem_of_fmap. exists name. auto. }
  unfold makeBins in Hin'. apply list_elem_of_fmap in Hin' as (n & Heq & Hn).
  injection Heq as -> ->.
  exists n. split; [exact Hn|]. split; [exact Hmiss'|].
  unfold RunServe, resolvePaths. rewrite bind_run, Hfl, Habs, Hexe.
  fold dir. rewrite bind_run, Hrun. reflexivity.
Qed.

Lemma pollLoop_ready (n k : nat) (log : string) (s : State) (cmd : Cmd) :
  orchCmd s = Some cmd -> ProcessState cmd = None ->
  k < n ->
  (forall j, j < k -> Count (logAt E (logReads s + j)) marker < 2) ->
  2 <= Count (logAt E (logReads s + k)) marker ->
  pollLoop E n log s = Return true (afterPolls (S k) s).
Proof.
  revert n s. induction k as [|k IH]; intros n s Hc Hp Hk Hlow Hhigh;
    (destruct n as [|n]; [lia|]); rewrite (pollLoop_step _ _ _ _ _ Hc Hp).
  - rewrite Nat.add_0_r in Hhigh. apply Nat.leb_le in Hhigh. rewrite Hhigh.
    reflexivity.
  - pose proof (Hlow 0 ltac:(lia)) as H0. rewrite Nat.add_0_r in H0.
    apply Nat.leb_gt in H0. rewrite H0.
    change (afterPolls (S (S k)) s) with (afterPolls (S k) (afterPolls 1 s)).
    apply IH; auto; [lia | |].
    + intros j Hj. simpl.
      replace (S (logReads s + j)) with (logReads s + S j) by lia.
      apply Hlow. lia.
    + simpl. replace (S (logReads s + k)) with (logReads s + S k) by lia.
      exact Hhigh.
Qed.

(** X17: the readiness wait ends at the first read of the log that shows
    two markers: if that is read number [k] (from 0, below 30), the wait
    returns after [k + 1] sleeps of 500 ms, having printed nothing. *)
Theorem ready_at_first_full_read (p : paths) (tmpConfig : string)
    (s0 s : State) (k : nat) :
  launch E p tmpConfig s0 = Return tt s ->
  k < 30 ->
  (forall j, j < k -> Count (logAt E (logReads s + j)) marker < 2) ->
  2 <= Count (logAt E (logReads s + k)) marker ->
  awaitReady E p s = Return tt (afterPolls (S k) s)
  /\ trace (afterPolls (S k) s) = trace s ++ repeat (Sleep 500) (S k)
  /\ stderr (afterPolls (S k) s) = stderr s
  /\ logReads (afterPolls (S k) s) = logReads s + S k.
Proof.
  intros Hl Hk Hlow Hhigh. apply launch_Return in Hl as (pid & Hc & _).
  split.
  - unfold awaitReady. rewrite bind_run.
    rewrite (pollLoop_ready 30 k _ s _ Hc eq_refl Hk Hlow Hhigh). reflexivity.
  - destruct (afterPolls_proj (S k) s) as (H1 & H2 & H3 & H4 & H5 & H6). auto.
Qed.

(** What the transport makes of [runTransport]. *)
Lemma runTransport_cases (p : paths) (a : string) (s : State) :
  runTransport E p a s
  = match startProcess E (binsAt (bins p) "transport-stdio")
            (transportArgs p a) with
    | inl _ => Return tt s
    | inr pid =>
        if (exitStatus E pid =? 0)%Z
        then Return tt (addEvent (Started (binsAt (bins p) "transport-stdio")
                                    (transportArgs p a) pid) s)
        else Exited (exitStatus E pid)
               (addEvent (Started (binsAt (bins p) "transport-stdio")
                            (transportArgs p a) pid) s)
    end.
Proof.
  unfold runTransport, Cmd_Run, Cmd_Start, Cmd_Wait, exec_Command, emit,
    os_Exit, mbind, M_bind, bind, mret, M_ret, ret.
  simpl. destruct (startProcess E _ _) as [err|pid]; [reflexivity|].
  simpl. destruct (exitStatus E pid =? 0)%Z; reflexivity.
Qed.

(** X18: with a hub that becomes ready and announces an address, the
    exit status of the supervisor is that of the transport: when the
    transport ends with a status other than 0 the supervisor ends with the
    same status; when it ends with 0, and also when it cannot be started
    at all, [RunServe] returns normally. *)
Theorem supervisor_exit_status (p : paths) (tmpConfig : string)
    (s0 s : State) (k : nat) (pre a post : string) :
  launch E p tmpConfig s0 = Return tt s ->
  k < 30 ->
  (forall j, j < k -> Count (logAt E (logReads s + j)) marker < 2) ->
  2 <= Count (logAt E (logReads s + k)) marker ->
  occursAt (logAt E (logReads s + S k)) pre a post ->
  firstMatch (logAt E (logReads s + S k)) pre ->
  exists s',
    supervise E p s
    = match startProcess E (binsAt (bins p) "transport-stdio")
              (transportArgs p a) with
      | inr pid =>
          if (exitStatus E pid =? 0)%Z then Return tt s'
          else Exited (exitStatus E pid) s'
      | inl _ => Return tt s'
      end.
Proof.
  intros Hl Hk Hlow Hhigh Hocc Hfirst.
  pose proof Hl as Hl'. apply launch_Return in Hl' as (pid & Hc & _).
  assert (Ha : awaitReady E p s = Return tt (afterPolls (S k) s)).
  { unfold awaitReady. rewrite bind_run.
    rewrite (pollLoop_ready 30 k _ s _ Hc eq_refl Hk Hlow Hhigh). reflexivity. }
  destruct (afterPolls_proj (S k) s) as (_ & _ & _ & Hreads & _).
  assert (Hh : handOff E p (afterPolls (S k) s)
               = runTransport E p a (tickLog (afterPolls (S k) s))).
  { apply (handOff_found E p _ (listening +:+ a) a).
    rewrite Hreads. apply (find_first _ pre a post); assumption. }
  unfold supervise.
  rewrite (bind_Return _ _ _ _ _ Ha), bind_run, Hh, runTransport_cases.
  destruct (startProcess E _ _) as [err|tpid].
  - apply returnFrom_returns.
  - destruct (exitStatus E tpid =? 0)%Z.
    + apply returnFrom_returns.
    + eexists. reflexivity.
Qed.

Lemma kills_app (t1 t2 : list event) : kills (t1 ++ t2) = kills t1 + kills t2.
Proof.
  induction t1 as [|e t1 IH]; [reflexivity|].
  destruct e; simpl; rewrite IH; reflexivity.
Qed.

Lemma kills_quiet (evs : list event) : Forall waitsOrStarts evs -> kills evs = 0.
Proof.
  induction 1 as [|e evs He _ IH]; [reflexivity|].
  destruct e; simpl in *; try contradiction; exact IH.
Qed.

(** X19: when [RunServe] returns normally after the launch, the shutdown
    sequence has run once: the hub has been killed once, neither the
    temporary configuration nor the pid file is left as a file, every
    other file is as it was after the launch, and no deferred call is
    pending. *)
Theorem normal_return_cleans_up (p : paths) (tmpConfig : string)
    (s0 s s' : State) :
  defers s0 = [] ->
  launch E p tmpConfig s0 = Return tt s ->
  supervise E p s = Return tt s' ->
  kills (trace s') = kills (trace s) + 1
  /\ (forall d, files s' !! tmpConfig <> Some (File d))
  /\ (forall d, files s' !! pidFileOf E p <> Some (File d))
  /\ (forall q, q <> tmpConfig -> q <> pidFileOf E p ->
                files s' !! q = files s !! q)
  /\ defers s' = [].
Proof.
  intros Hd0 Hl Hrun. apply launch_Return in Hl as (pid & Hc & Hd & _).
  rewrite Hd0 in Hd.
  unfold supervise in Hrun. rewrite bind_run in Hrun.
  destruct (awaitReady_quiet E p s _ Hc eq_refl)
    as (s1 & [[Ha Hq1] | [Ha Hq1]]);
    rewrite Ha in Hrun; [|discriminate].
  rewrite bind_run in Hrun.
  destruct (handOff_quiet E p s1) as (s2 & Hq2 & [Hh | [c' Hh]]);
    rewrite Hh in Hrun; [|discriminate].
  destruct (quiet_trans _ _ _ Hq1 Hq2) as (F & D & C & evs & T & W).
  unfold returnFrom in Hrun. rewrite D, Hd in Hrun.
  unfold forM_, runDeferred, cleanup, getOrchCmd, pkill, time_Sleep, emit,
    os_Remove, mbind, M_bind, bind, mret, M_ret, ret in Hrun.
  simpl in Hrun.
  destruct (files s2 !! pidFileOf E p) as [[pidData|]|] eqn:Hpf;
    simpl in Hrun; rewrite C, Hc in Hrun; simpl in Hrun;
    repeat case_match; simplify_eq; simpl in *.
  all: split;
    [rewrite !kills_app, T, kills_app, (kills_quiet evs W); simpl; lia|].
  all: rewrite ?F in *.
  all: destruct (decide (tmpConfig = pidFileOf E p)) as [Heq|Hneq];
    [try rewrite Heq in *|].
  all: split; [intros d0 Hx; simplify_map_eq|].
  all: split; [intros d0 Hx; simplify_map_eq|].
  all: split; [intros q Hq1' Hq2'; simplify_map_eq; reflexivity | reflexivity].
Qed.

End Serving.

(** * Repeated shutdown *)

(** One run of [cleanup]. *)
Lemma cleanup_once (tmpConfig : string) (s : State) :
  exists s1,
    cleanup tmpConfig s = Return tt s1
    /\ stderr s1 = stderr s /\ orchCmd s1 = orchCmd s
    /\ files s1 = match files s !! tmpConfig with
                  | Some (File _) => delete tmpConfig (files s)
                  | _ => files s
                  end
    /\ trace s1 = trace s ++ match orchCmd s ≫= Process with
                             | Some pid => shutdownEvents pid
                             | None => []
                             end.
Proof.
  unfold cleanup, getOrchCmd, pkill, time_Sleep, emit, os_Remove,
    mbind, M_bind, bind, mret, M_ret, ret.
  simpl.
  destruct (orchCmd s) as [[path args [pid|] st]|] eqn:Hc; simpl;
    destruct (files s !! tmpConfig) as [[data|]|]; simpl;
    eexists; (split; [reflexivity|]); simpl;
    rewrite <- ?app_assoc, ?app_nil_r;
    (split; [reflexivity|]); (split; [exact Hc|]); split; reflexivity.
Qed.

(** X20: the closure [cleanup] can be run any number of times.  Each run
    returns, prints nothing and leaves the temporary configuration not a
    file; a second run changes no file.  When a hub process has been
    started, each run signals and kills it anew and sleeps 300 ms; when
    none has been started, a run touches no process. *)
Theorem cleanup_repeatable (tmpConfig : string) (s : State) :
  exists s1 s2,
    cleanup tmpConfig s = Return tt s1
    /\ cleanup tmpConfig s1 = Return tt s2
    /\ stderr s2 = stderr s /\ files s2 = files s1
    /\ (forall d, files s1 !! tmpConfig <> Some (File d))
    /\ (forall q, q <> tmpConfig -> files s1 !! q = files s !! q)
    /\ match orchCmd s ≫= Process with
       | Some pid =>
           trace s1 = trace s ++ shutdownEvents pid
           /\ trace s2 = trace s1 ++ shutdownEvents pid
       | None => trace s1 = trace s /\ trace s2 = trace s
       end.
Proof.
  destruct (cleanup_once tmpConfig s) as (s1 & R1 & E1 & C1 & F1 & T1).
  destruct (cleanup_once tmpConfig s1) as (s2 & R2 & E2 & C2 & F2 & T2).
  exists s1, s2. split; [exact R1|]. split; [exact R2|].
  assert (Hno : forall d, files s1 !! tmpConfig <> Some (File d)).
  { intros d. rewrite F1. destruct (files s !! tmpConfig) as [[d0|]|] eqn:Hs;
      [rewrite lookup_delete_eq|rewrite Hs|rewrite Hs]; discriminate. }
  split; [congruence|]. split.
  { rewrite F2. pose proof Hno as Hno'.
    destruct (files s1 !! tmpConfig) as [[d|]|]; auto.
    destruct (Hno' d eq_refl). }
  split; [exact Hno|]. split.
  { intros q Hq. rewrite F1. destruct (files s !! tmpConfig) as [[d|]|]; auto.
    apply lookup_delete_ne. congruence. }
  rewrite C1 in T2.
  destruct (orchCmd s ≫= Process) as [pid|].
  - split; [exact T1 | exact T2].
  - rewrite app_nil_r in T1, T2. split; congruence.
Qed.

(** * Instances *)

(** ** The further theorems at the demonstration installations *)

Lemma stocked_loads :
  LoadRegistry Shop.env Shop.stocked = Return (inr Demo.twoPlugins) Shop.stocked.
Proof. vm_compute. reflexivity. Defined.

Lemma plugins_lists_each_entry_witness :
  LoadRegistry Shop.env Shop.stocked = Return (inr Demo.twoPlugins) Shop.stocked
  /\ exists s' lines,
       RunPlugins Shop.env [] Shop.stocked = Return tt s'
       /\ files s' = files Shop.stocked /\ trace s' = trace Shop.stocked
       /\ stderr s' = stderr Shop.stocked ++ lines
       /\ if decide (Demo.twoPlugins = ∅)
          then lines = ["No plugins installed. Run: orchestra install <github-repo>"
                        +:+ nl]
          else exists rows,
                 lines = ("Installed plugins:" +:+ nl) :: rows
                 /\ rows ≡ₚ map (fun kp => pluginLine kp.2)
                              (map_to_list Demo.twoPlugins).
Proof.
  split; [exact stocked_loads|].
  exact (plugins_lists_each_entry Shop.env [] Shop.stocked Demo.twoPlugins
           stocked_loads).
Defined.

Lemma twoPlugins_ids (target : string) :
  target <> "alpha" -> target <> "beta" ->
  forall k p, Demo.twoPlugins !! k = Some p -> ID p <> target.
Proof.
  intros Ha Hb k p H. apply elem_of_map_to_list in H.
  assert (Hl : map_to_list Demo.twoPlugins
               = [("github.com/x/alpha", Demo.alpha);
                  ("github.com/x/beta", Demo.beta)])
    by (vm_compute; reflexivity).
  rewrite Hl in H.
  apply elem_of_cons in H as [H|H]; [injection H as -> ->; simpl; congruence|].
  apply elem_of_cons in H as [H|H]; [injection H as -> ->; simpl; congruence|].
  apply elem_of_nil in H. destruct H.
Defined.

Lemma unknown_plugin_is_fatal_witness :
  LoadRegistry Shop.env Shop.stocked = Return (inr Demo.twoPlugins) Shop.stocked
  /\ Demo.twoPlugins !! "delta" = None
  /\ (forall k p, Demo.twoPlugins !! k = Some p -> ID p <> "delta")
  /\ RunUninstall Shop.env ["delta"] Shop.stocked
     = Exited 1 (addStderr (fatalLine ("plugin not found: " +:+ "delta"))
                   Shop.stocked)
  /\ RunUpdate Shop.env ["delta"] Shop.stocked
     = Exited 1 (addStderr (fatalLine ("plugin not found: " +:+ "delta"))
                   Shop.stocked).
Proof.
  assert (H1 : Demo.twoPlugins !! "delta" = None) by (vm_compute; reflexivity).
  assert (H2 : forall k p, Demo.twoPlugins !! k = Some p -> ID p <> "delta")
    by (apply twoPlugins_ids; discriminate).
  split; [exact stocked_loads|]. split; [exact H1|]. split; [exact H2|].
  exact (unknown_plugin_is_fatal Shop.env Shop.stocked Demo.twoPlugins
           "delta" [] stocked_loads H1 H2).
Defined.

Lemma stocked_registry_file :
  files Shop.stocked !! registryPath Shop.env <> Some Dir.
Proof. vm_compute. discriminate. Defined.

Lemma save_then_load_witness :
  canWrite Shop.env (registryDir Shop.env) = true
  /\ canWrite Shop.env (registryPath Shop.env) = true
  /\ files Shop.stocked !! registryPath Shop.env <> Some Dir
  /\ json_MarshalIndent Shop.env (delete "github.com/x/alpha" Demo.twoPlugins)
     = inr "github.com/x/beta"
  /\ json_Unmarshal Shop.env "github.com/x/beta"
     = inr (Some (delete "github.com/x/alpha" Demo.twoPlugins))
  /\ exists s',
       SaveRegistry Shop.env (delete "github.com/x/alpha" Demo.twoPlugins)
         Shop.stocked = Return None s'
       /\ files s' = <[registryPath Shop.env := File "github.com/x/beta"]>
                       (files Shop.stocked)
       /\ LoadRegistry Shop.env s'
          = Return (inr (delete "github.com/x/alpha" Demo.twoPlugins)) s'.
Proof.
  assert (H1 : canWrite Shop.env (registryDir Shop.env) = true) by reflexivity.
  assert (H2 : canWrite Shop.env (registryPath Shop.env) = true) by reflexivity.
  assert (H4 : json_MarshalIndent Shop.env
                 (delete "github.com/x/alpha" Demo.twoPlugins)
               = inr "github.com/x/beta") by (vm_compute; reflexivity).
  assert (H5 : json_Unmarshal Shop.env "github.com/x/beta"
               = inr (Some (delete "github.com/x/alpha" Demo.twoPlugins)))
    by (vm_compute; reflexivity).
  split; [exact H1|]. split; [exact H2|]. split; [exact stocked_registry_file|].
  split; [exact H4|]. split; [exact H5|].
  exact (save_then_load Shop.env Shop.stocked _ _ H1 H2 stocked_registry_file
           H4 H5).
Defined.

Lemma install_registers_entry_witness :
  acquire Shop.env ["github.com/x/gamma"] Shop.stocked
  = Return Demo.fetched Shop.stocked
  /\ LoadRegistry Shop.env Shop.stocked
     = Return (inr Demo.twoPlugins) Shop.stocked
  /\ canWrite Shop.env (registryDir Shop.env) = true
  /\ canWrite Shop.env (registryPath Shop.env) = true
  /\ json_MarshalIndent Shop.env
       (<[aRepo Demo.fetched := entryOf Shop.env Demo.fetched]> Demo.twoPlugins)
     = inr "github.com/x/gamma,github.com/x/alpha,github.com/x/beta"
  /\ json_Unmarshal Shop.env
       "github.com/x/gamma,github.com/x/alpha,github.com/x/beta"
     = inr (Some (<[aRepo Demo.fetched := entryOf Shop.env Demo.fetched]>
                    Demo.twoPlugins))
  /\ exists s',
       RunInstall Shop.env ["github.com/x/gamma"] Shop.stocked = Return tt s'
       /\ files s'
          = <[registryPath Shop.env
              := File "github.com/x/gamma,github.com/x/alpha,github.com/x/beta"]>
              (files Shop.stocked)
       /\ LoadRegistry Shop.env s'
          = Return (inr (<[aRepo Demo.fetched := entryOf Shop.env Demo.fetched]>
                           Demo.twoPlugins)) s'
       /\ (aVersion Demo.fetched = ""
           -> Version (entryOf Shop.env Demo.fetched) = "latest")
       /\ (keyedByRepo Demo.twoPlugins
           -> keyedByRepo (<[aRepo Demo.fetched := entryOf Shop.env Demo.fetched]>
                             Demo.twoPlugins)).
Proof.
  assert (H1 : acquire Shop.env ["github.com/x/gamma"] Shop.stocked
               = Return Demo.fetched Shop.stocked) by reflexivity.
  assert (H3 : canWrite Shop.env (registryDir Shop.env) = true) by reflexivity.
  assert (H4 : canWrite Shop.env (registryPath Shop.env) = true) by reflexivity.
  assert (H5 : json_MarshalIndent Shop.env
                 (<[aRepo Demo.fetched := entryOf Shop.env Demo.fetched]>
                    Demo.twoPlugins)
               = inr "github.com/x/gamma,github.com/x/alpha,github.com/x/beta")
    by (vm_compute; reflexivity).
  assert (H6 : json_Unmarshal Shop.env
                 "github.com/x/gamma,github.com/x/alpha,github.com/x/beta"
               = inr (Some (<[aRepo Demo.fetched
                              := entryOf Shop.env Demo.fetched]>
                              Demo.twoPlugins)))
    by (vm_compute; reflexivity).
  split; [exact H1|]. split; [exact stocked_loads|]. split; [exact H3|].
  split; [exact H4|]. split; [exact H5|]. split; [exact H6|].
  exact (install_registers_entry Shop.env _ Shop.stocked Shop.stocked
           Demo.fetched Demo.twoPlugins _ H1 stocked_loads H3 H4 H5 H6).
Defined.


Lemma missing_sibling_is_fatal_witness :
  flag_Parse Shop.env {| workspace := "."; certsDir := defaultCertsDir Shop.env;
                         logPath := "" |} ["--workspace=/w"]
  = inr {| workspace := "."; certsDir := defaultCertsDir Shop.env;
           logPath := "" |}
  /\ filepath_Abs Shop.env "." = inr "/w"
  /\ os_Executable Shop.env = inr "/opt/orchestra/orchestra"
  /\ (exists name,
        name ∈ binNames
        /\ files Shop.incomplete
           !! filepath_Join Shop.env
                [filepath_Dir Shop.env
                   (filepath_EvalSymlinks Shop.env "/opt/orchestra/orchestra");
                 name] = None)
  /\ exists name,
       name ∈ binNames
       /\ files Shop.incomplete
          !! filepath_Join Shop.env
               [filepath_Dir Shop.env
                  (filepath_EvalSymlinks Shop.env "/opt/orchestra/orchestra");
                name] = None
       /\ RunServe Shop.env ["--workspace=/w"] Shop.incomplete
          = Exited 1
              (addStderr
                 (fatalLine
                    ("missing binary " +:+ quote name +:+ " at "
                     +:+ filepath_Join Shop.env
                           [filepath_Dir Shop.env
                              (filepath_EvalSymlinks Shop.env
                                 "/opt/orchestra/orchestra");
                            name]))
                 Shop.incomplete).
Proof.
  assert (H1 : flag_Parse Shop.env
                 {| workspace := "."; certsDir := defaultCertsDir Shop.env;
                    logPath := "" |} ["--workspace=/w"]
               = inr {| workspace := "."; certsDir := defaultCertsDir Shop.env;
                        logPath := "" |}) by reflexivity.
  assert (H2 : filepath_Abs Shop.env "." = inr "/w") by reflexivity.
  assert (H3 : os_Executable Shop.env = inr "/opt/orchestra/orchestra")
    by reflexivity.
  assert (H4 : exists name,
             name ∈ binNames
             /\ files Shop.incomplete
                !! filepath_Join Shop.env
                     [filepath_Dir Shop.env
                        (filepath_EvalSymlinks Shop.env
                           "/opt/orchestra/orchestra");
                      name] = None).
  { exists "transport-stdio". split; [|vm_compute; reflexivity].
    unfold binNames. do 3 apply list_elem_of_further. apply list_elem_of_here. }
  split; [exact H1|]. split; [exact H2|]. split; [exact H3|].
  split; [exact H4|].
  exact (missing_sibling_is_fatal Shop.env ["--workspace=/w"] Shop.incomplete
           _ "/w" "/opt/orchestra/orchestra" H1 H2 H3 H4).
Defined.

Lemma launchedSlow_ok :
  launch Shop.slowEnv Demo.somePaths Demo.tmpName Demo.prepared
  = Return tt Shop.launchedSlow.
Proof. vm_compute. reflexivity. Defined.

Lemma slowLog_low (j : nat) :
  j < 2 ->
  Count (logAt Shop.slowEnv (logReads Shop.launchedSlow + j)) marker < 2.
Proof.
  intros Hj. destruct j as [|[|j]]; [vm_compute; lia | vm_compute; lia | lia].
Defined.

Lemma slowLog_high :
  2 <= Count (logAt Shop.slowEnv (logReads Shop.launchedSlow + 2)) marker.
Proof. vm_compute. lia. Defined.

Lemma ready_at_first_full_read_witness :
  launch Shop.slowEnv Demo.somePaths Demo.tmpName Demo.prepared
  = Return tt Shop.launchedSlow
  /\ 2 < 30
  /\ (forall j, j < 2 ->
        Count (logAt Shop.slowEnv (logReads Shop.launchedSlow + j)) marker < 2)
  /\ 2 <= Count (logAt Shop.slowEnv (logReads Shop.launchedSlow + 2)) marker
  /\ awaitReady Shop.slowEnv Demo.somePaths Shop.launchedSlow
     = Return tt (afterPolls 3 Shop.launchedSlow)
  /\ trace (afterPolls 3 Shop.launchedSlow)
     = trace Shop.launchedSlow ++ repeat (Sleep 500) 3
  /\ stderr (afterPolls 3 Shop.launchedSlow) = stderr Shop.launchedSlow
  /\ logReads (afterPolls 3 Shop.launchedSlow) = logReads Shop.launchedSlow + 3.
Proof.
  assert (Hk : 2 < 30) by lia.
  split; [exact launchedSlow_ok|]. split; [exact Hk|].
  split; [exact slowLog_low|]. split; [exact slowLog_high|].
  exact (ready_at_first_full_read Shop.slowEnv Demo.somePaths Demo.tmpName
           Demo.prepared Shop.launchedSlow 2 launchedSlow_ok Hk slowLog_low
           slowLog_high).
Defined.

Lemma slowLog_occurs :
  occursAt (logAt Shop.slowEnv (logReads Shop.launchedSlow + 3))
    (Demo.bootedLine +:+ Demo.bootedLine) "127.0.0.1:54321" nl.
Proof.
  split; [reflexivity|]. split; [discriminate|]. split; reflexivity.
Defined.

Lemma slowLog_first :
  firstMatch (logAt Shop.slowEnv (logReads Shop.launchedSlow + 3))
    (Demo.bootedLine +:+ Demo.bootedLine).
Proof. apply firstMatch_check. vm_compute. reflexivity. Defined.

Lemma supervisor_exit_status_witness :
  launch Shop.slowEnv Demo.somePaths Demo.tmpName Demo.prepared
  = Return tt Shop.launchedSlow
  /\ 2 < 30
  /\ (forall j, j < 2 ->
        Count (logAt Shop.slowEnv (logReads Shop.launchedSlow + j)) marker < 2)
  /\ 2 <= Count (logAt Shop.slowEnv (logReads Shop.launchedSlow + 2)) marker
  /\ occursAt (logAt Shop.slowEnv (logReads Shop.launchedSlow + 3))
       (Demo.bootedLine +:+ Demo.bootedLine) "127.0.0.1:54321" nl
  /\ firstMatch (logAt Shop.slowEnv (logReads Shop.launchedSlow + 3))
       (Demo.bootedLine +:+ Demo.bootedLine)
  /\ exists s',
       supervise Shop.slowEnv Demo.somePaths Shop.launchedSlow = Exited 3 s'.
Proof.
  assert (Hk : 2 < 30) by lia.
  split; [exact launchedSlow_ok|]. split; [exact Hk|].
  split; [exact slowLog_low|]. split; [exact slowLog_high|].
  split; [exact slowLog_occurs|]. split; [exact slowLog_first|].
  exact (supervisor_exit_status Shop.slowEnv Demo.somePaths Demo.tmpName
           Demo.prepared Shop.launchedSlow 2 _ _ _ launchedSlow_ok Hk
           slowLog_low slowLog_high slowLog_occurs slowLog_first).
Defined.

Lemma launchedReady_ok :
  launch (Demo.env Demo.readyLog 0) Demo.somePaths Demo.tmpName Demo.prepared
  = Return tt Shop.launchedReady.
Proof. vm_compute. reflexivity. Defined.

Lemma normal_return_cleans_up_witness :
  defers Demo.prepared = []
  /\ launch (Demo.env Demo.readyLog 0) Demo.somePaths Demo.tmpName Demo.prepared
     = Return tt Shop.launchedReady
  /\ supervise (Demo.env Demo.readyLog 0) Demo.somePaths Shop.launchedReady
     = Return tt Shop.finished
  /\ kills (trace Shop.finished) = kills (trace Shop.launchedReady) + 1
  /\ (forall d, files Shop.finished !! Demo.tmpName <> Some (File d))
  /\ (forall d, files Shop.finished
                !! pidFileOf (Demo.env Demo.readyLog 0) Demo.somePaths
                <> Some (File d))
  /\ (forall q, q <> Demo.tmpName ->
                q <> pidFileOf (Demo.env Demo.readyLog 0) Demo.somePaths ->
                files Shop.finished !! q = files Shop.launchedReady !! q)
  /\ defers Shop.finished = [].
Proof.
  assert (H1 : defers Demo.prepared = []) by (vm_compute; reflexivity).
  assert (H3 : supervise (Demo.env Demo.readyLog 0) Demo.somePaths
                 Shop.launchedReady = Return tt Shop.finished)
    by (vm_compute; reflexivity).
  split; [exact H1|]. split; [exact launchedReady_ok|]. split; [exact H3|].
  exact (normal_return_cleans_up (Demo.env Demo.readyLog 0) Demo.somePaths
           Demo.tmpName Demo.prepared Shop.launchedReady Shop.finished
           H1 launchedReady_ok H3).
Defined.
